(** * med_segmentation: the .mat to NIfTI label converter and the network
      block builder, embedded and verified.

    Two source files are covered.

    - [src/convert_mat_to_nifti.py]: a script that, for every subject
      directory, loads four class masks, sums them weighted by their label
      codes into one volume and saves that as [AT_<subject>.nii.gz].
    - [src/models/basic_block.py]: [block], a builder of layer sequences
      driven by an [order] list, and [block_FCN].

    Conventions of the embedding.

    - A Python exception is a value of [exn]; code that can raise returns a
      [result].
    - A 3-D [numpy] array is its shape together with its indexing function,
      so that the real target shape (320, 260, 316) can be used and a voxel
      can still be evaluated.
    - The arrays of a .mat file carry their dtype: [float64], [float32], the
      eight integer types or [bool].  Floating-point values are IEEE 754
      values ([spec_float], with NaN and the infinities) and the operations
      on them round as binary64 or binary32 do; integer products wrap in
      their type.
    - The conversion of a [float64] to an unsigned 16-bit integer is the C
      conversion: the integer part when it fits, and otherwise a value the
      platform chooses: the embedding takes it as a parameter [cast].
    - Python lists that are mutated and shared ([order], [order_param]) live
      in a store of list objects addressed by locations. *)

From Stdlib Require Import ZArith QArith Lia Ascii String Bool SpecFloat.
From stdpp Require Import gmap strings list.

Local Open Scope string_scope.

(** ** Exceptions and results *)

Inductive exn : Type :=
| KeyError (key : string)
| ValueError
| AxisError
| FileNotFoundError (path : string)
| AssertionError (msg : string)
| TypeError
| NameError (name : string).

Inductive result (A : Type) : Type :=
| Ok (a : A)
| Raise (e : exn).

Arguments Ok {A} a.
Arguments Raise {A} e.

Definition rbind {A B : Type} (r : result A) (k : A -> result B) : result B :=
  match r with
  | Ok a => k a
  | Raise e => Raise e
  end.

Declare Scope py_scope.
Delimit Scope py_scope with py.
Notation "x <- r ;; k" := (rbind r (fun x => k))
  (at level 100, r at next level, right associativity) : py_scope.
Local Open Scope py_scope.

(** A [for] loop whose body may raise: the first exception ends the loop. *)
Fixpoint for_each {A S : Type} (body : S -> A -> result S) (l : list A) (s : S)
  : result S :=
  match l with
  | [] => Ok s
  | x :: l' => s' <- body s x ;; for_each body l' s'
  end.

(** ** The part of numpy the script uses, on 3-D arrays *)

Module NumPy.

Definition shape3 : Type := (nat * nat * nat)%type.

Record ndarray (A : Type) : Type := mk_ndarray {
  shape : shape3;
  item : nat -> nat -> nat -> A
}.
Arguments mk_ndarray {A} shape item.
Arguments shape {A} _.
Arguments item {A} _ _ _ _.

Definition in_bounds (sh : shape3) (i j k : nat) : Prop :=
  let '(d0, d1, d2) := sh in i < d0 /\ j < d1 /\ k < d2.

(** The shape with its axes 0 and 1 swapped. *)
Definition swap01 (sh : shape3) : shape3 :=
  let '(d0, d1, d2) := sh in (d1, d0, d2).

(** *** Element types *)

(** Operations of [float64] (binary64) and [float32] (binary32), rounding
    to nearest, ties to even. *)
Definition float64_add : spec_float -> spec_float -> spec_float := SFadd 53 1024.
Definition float64_mul : spec_float -> spec_float -> spec_float := SFmul 53 1024.
Definition float32_mul : spec_float -> spec_float -> spec_float := SFmul 24 128.

(** A Python integer as a [float64] or a [float32]. *)
Definition float64_of_Z (z : Z) : spec_float := binary_normalize 53 1024 z 0 false.
Definition float32_of_Z (z : Z) : spec_float := binary_normalize 24 128 z 0 false.

(** A [float32] as a [float64]: the same value. *)
Definition float64_of_float32 (x : spec_float) : spec_float :=
  match x with
  | S754_finite s m e => binary_round 53 1024 s m e
  | _ => x
  end.

(** The integer dtypes. *)
Inductive int_dtype : Type :=
| int8 | int16 | int32 | int64 | uint8 | uint16 | uint32 | uint64.

Definition int_bits (t : int_dtype) : Z :=
  match t with
  | int8 | uint8 => 8
  | int16 | uint16 => 16
  | int32 | uint32 => 32
  | int64 | uint64 => 64
  end.

Definition int_signed (t : int_dtype) : bool :=
  match t with
  | int8 | int16 | int32 | int64 => true
  | uint8 | uint16 | uint32 | uint64 => false
  end.

(** An integer result stored in the type [t]: it wraps around. *)
Definition wrap_int (t : int_dtype) (z : Z) : Z :=
  if int_signed t
  then (z + 2 ^ (int_bits t - 1)) mod 2 ^ int_bits t - 2 ^ (int_bits t - 1)
  else z mod 2 ^ int_bits t.

(** An element of an array, with its dtype. *)
Inductive element : Type :=
| Float64 (x : spec_float)
| Float32 (x : spec_float)
| Int (t : int_dtype) (z : Z)
| Bool (b : bool).

(** A numeric array as [loadmat] returns it. *)
Inductive array : Type :=
| Float64Array (a : ndarray spec_float)
| Float32Array (a : ndarray spec_float)
| IntArray (t : int_dtype) (a : ndarray Z)
| BoolArray (a : ndarray bool).

Definition array_shape (a : array) : shape3 :=
  match a with
  | Float64Array a | Float32Array a => shape a
  | IntArray _ a => shape a
  | BoolArray a => shape a
  end.

(** [a[i, j, k]]. *)
Definition element_at (a : array) (i j k : nat) : element :=
  match a with
  | Float64Array a => Float64 (item a i j k)
  | Float32Array a => Float32 (item a i j k)
  | IntArray t a => Int t (item a i j k)
  | BoolArray a => Bool (item a i j k)
  end.

Definition map_items {A B : Type} (f : A -> B) (a : ndarray A) : ndarray B :=
  mk_ndarray (shape a) (fun i j k => f (item a i j k)).

(** *** Operations *)

(** [np.zeros(shape)]: a [float64] array of zeros. *)
Definition zeros (sh : shape3) : ndarray spec_float :=
  mk_ndarray sh (fun _ _ _ => S754_zero false).

(** The view of the items with two axes swapped; an axis out of range
    raises. *)
Definition swap_items {A : Type} (a : ndarray A) (axis1 axis2 : nat)
  : result (ndarray A) :=
  let '(d0, d1, d2) := shape a in
  match axis1, axis2 with
  | 0, 0 | 1, 1 | 2, 2 => Ok a
  | 0, 1 | 1, 0 => Ok (mk_ndarray (d1, d0, d2) (fun i j k => item a j i k))
  | 0, 2 | 2, 0 => Ok (mk_ndarray (d2, d1, d0) (fun i j k => item a k j i))
  | 1, 2 | 2, 1 => Ok (mk_ndarray (d0, d2, d1) (fun i j k => item a i k j))
  | _, _ => Raise AxisError
  end.

(** [np.swapaxes(a, axis1, axis2)] on a 3-D array: the dtype is kept. *)
Definition swapaxes (a : array) (axis1 axis2 : nat) : result array :=
  match a with
  | Float64Array a => a' <- swap_items a axis1 axis2 ;; Ok (Float64Array a')
  | Float32Array a => a' <- swap_items a axis1 axis2 ;; Ok (Float32Array a')
  | IntArray t a => a' <- swap_items a axis1 axis2 ;; Ok (IntArray t a')
  | BoolArray a => a' <- swap_items a axis1 axis2 ;; Ok (BoolArray a')
  end.

(** [a * c] for a Python integer [c] that every dtype can hold, as the label
    codes are: the result has the dtype of [a] (the default integer type
    for a [bool] array); float products are rounded in the format of [a],
    integer products wrap in the type of [a]. *)
Definition mul_int (a : array) (c : Z) : array :=
  match a with
  | Float64Array a =>
      Float64Array (map_items (fun x => float64_mul x (float64_of_Z c)) a)
  | Float32Array a =>
      Float32Array (map_items (fun x => float32_mul x (float32_of_Z c)) a)
  | IntArray t a => IntArray t (map_items (fun z => wrap_int t (z * c)%Z) a)
  | BoolArray a =>
      IntArray int64 (map_items (fun b => wrap_int int64 (Z.b2z b * c)%Z) a)
  end.

(** The items of [a] converted to [float64], as an in-place addition into
    a [float64] array converts them. *)
Definition astype_float64 (a : array) : ndarray spec_float :=
  match a with
  | Float64Array a => a
  | Float32Array a => map_items float64_of_float32 a
  | IntArray _ a => map_items float64_of_Z a
  | BoolArray a => map_items (fun b => float64_of_Z (Z.b2z b)) a
  end.

(** One dimension of [src] fits the dimension of [dst] it is added into
    when it is equal to it or is 1 (then it is stretched). *)
Definition dim_fits (src dst : nat) : bool :=
  (src =? dst)%nat || (src =? 1)%nat.

Definition broadcastable (src dst : shape3) : bool :=
  let '(s0, s1, s2) := src in
  let '(d0, d1, d2) := dst in
  dim_fits s0 d0 && dim_fits s1 d1 && dim_fits s2 d2.

(** The index read in a dimension of extent [d] of the source. *)
Definition bidx (d i : nat) : nat := if (d =? 1)%nat then 0 else i.

(** [dst += src] for a [float64] array [dst]: the shape of [dst] is kept;
    [src] is converted to [float64] and broadcast to it, or the operation
    raises [ValueError]. *)
Definition iadd (dst : ndarray spec_float) (src : array)
  : result (ndarray spec_float) :=
  if broadcastable (array_shape src) (shape dst) then
    let '(s0, s1, s2) := array_shape src in
    Ok (mk_ndarray (shape dst)
          (fun i j k =>
             float64_add (item dst i j k)
               (item (astype_float64 src) (bidx s0 i) (bidx s1 j) (bidx s2 k))))
  else Raise ValueError.

(** The integer part of a float, towards zero; none for NaN and the
    infinities. *)
Definition float_to_Z (x : spec_float) : option Z :=
  match x with
  | S754_zero _ => Some 0%Z
  | S754_finite s m e => Some (cond_Zopp s (Z.shiftl (Zpos m) e))
  | S754_infinity _ | S754_nan => None
  end.

(** An integer stored in 16 bits, unsigned. *)
Definition wrap16 (z : Z) : Z := z mod 2 ^ 16.

(** The conversion of a [float64] to [uint16]: the integer part when an
    unsigned 16-bit integer can hold it.  For the other values (negative,
    too large, NaN, infinite) C leaves the result to the platform: it is the
    16-bit value that [cast] gives. *)
Definition ushort_of_float (cast : spec_float -> Z) (x : spec_float) : Z :=
  match float_to_Z x with
  | Some z => if (0 <=? z)%Z && (z <? 2 ^ 16)%Z then z else wrap16 (cast x)
  | None => wrap16 (cast x)
  end.

(** [np.ushort(a)]: elementwise conversion to unsigned 16-bit integers. *)
Definition ushort (cast : spec_float -> Z) (a : ndarray spec_float) : ndarray Z :=
  map_items (ushort_of_float cast) a.

(** Two integer arrays hold the same data. *)
Definition same_array (a b : ndarray Z) : Prop :=
  shape a = shape b /\
  forall i j k, in_bounds (shape a) i j k -> item a i j k = item b i j k.

End NumPy.

(** ** String helpers of the Python standard library *)

Module Py.

(** [s.split(sep)] for a one-character separator. *)
Fixpoint split_from (sep : ascii) (cur : string) (s : string) : list string :=
  match s with
  | EmptyString => [cur]
  | String c s' =>
      if Ascii.eqb c sep then cur :: split_from sep EmptyString s'
      else split_from sep (cur +:+ String c EmptyString) s'
  end.

Definition split (sep : ascii) (s : string) : list string :=
  split_from sep EmptyString s.

(** [l[lo:hi]] for non-negative bounds. *)
Definition slice {A : Type} (lo hi : nat) (l : list A) : list A :=
  take (hi - lo) (drop lo l).

(** [sep.join(l)]. *)
Definition join (sep : string) (l : list string) : string :=
  String.concat sep l.

Definition startswith (p s : string) : bool := String.prefix p s.

Fixpoint last_char (s : string) : option ascii :=
  match s with
  | EmptyString => None
  | String c EmptyString => Some c
  | String _ s' => last_char s'
  end.

Definition endswith_char (c : ascii) (s : string) : bool :=
  match last_char s with
  | Some c' => Ascii.eqb c' c
  | None => false
  end.

(** [os.path.join(a, b)] of [posixpath]. *)
Definition os_path_join (a b : string) : string :=
  if startswith "/" b then b
  else if String.eqb a "" || endswith_char "/" a then a +:+ b
  else a +:+ "/" +:+ b.

(** The objects the "already processed" test handles. *)
Inductive object : Type :=
| PyNone
| PyList (l : list string).

(** [x is None]: identity with the [None] singleton. *)
Definition is_None (x : object) : bool :=
  match x with
  | PyNone => true
  | PyList _ => false
  end.

(** Whether the character [c] occurs in [s]. *)
Fixpoint has_char (c : ascii) (s : string) : bool :=
  match s with
  | EmptyString => false
  | String c' s' => Ascii.eqb c' c || has_char c s'
  end.

End Py.

(** ** src/convert_mat_to_nifti.py *)

Module ConvertMatToNifti.
Import NumPy Py.

(** The content of a .mat file as [loadmat] returns it: named arrays. *)
Abbreviation mat := (gmap string array).

(** What the script reads: directory listings and .mat files, by path. *)
Record filesystem : Type := mk_filesystem {
  dirs : gmap string (list string);
  mat_files : gmap string mat
}.

Definition os_listdir (fs : filesystem) (path : string) : result (list string) :=
  match dirs fs !! path with
  | Some names => Ok names
  | None => Raise (FileNotFoundError path)
  end.

Definition loadmat (fs : filesystem) (path : string) : result mat :=
  match mat_files fs !! path with
  | Some content => Ok content
  | None => Raise (FileNotFoundError path)
  end.

(** [d[key]] on a dict: [KeyError] when the key is absent. *)
Definition getitem {V : Type} (d : gmap string V) (key : string) : result V :=
  match d !! key with
  | Some v => Ok v
  | None => Raise (KeyError key)
  end.

(** The NIfTI image handed to [nib.save]: its data and its affine, which the
    script leaves out. *)
Record Nifti1Image : Type := mk_Nifti1Image {
  dataobj : ndarray Z;
  affine : option (list (list Q))
}.

(** Module-level constants, lines 7-15. *)
Definition root_mat_files : string := "/mnt/data/rawdata/NAKO/AT_NAKO".
Definition mat_file_name : string := "rework.mat".
Definition image_size : shape3 := (320, 260, 316).
Definition path_save_labels : string := "/mnt/share/rahauei1/AT_Thomas/labels".

(** The dict [labels], in insertion order (the order its keys are iterated
    in). *)
Definition labels : list (string * Z) :=
  [("P_BG", 0%Z); ("P_AT", 1%Z); ("P_LT", 2%Z); ("P_VAT", 3%Z)].

Definition labels_keys : list string := labels.*1.

Definition labels_getitem (key : string) : result Z :=
  getitem (list_to_map labels : gmap string Z) key.

(** Line 16: the subject keys read off the names of the files already in
    the output directory. *)
Definition labels_already_processed (fs : filesystem) : result (list string) :=
  names <- os_listdir fs path_save_labels ;;
  Ok (map (fun i => join "_" (slice 1 3 (split "_" i))) names).

(** Line 21: [[subject for i in labels_already_processed if subject == i]
    is None]. *)
Definition already_processed_test (subject : string) (processed : list string)
  : bool :=
  is_None
    (PyList (map (fun _ => subject)
               (List.filter (fun i => String.eqb subject i) processed))).

(** Lines 28-32, the body of the loop over the classes. *)
Definition add_class (mat_content : mat) (acc : ndarray spec_float)
    (seg_class : string) : result (ndarray spec_float) :=
  seg_map <- getitem mat_content seg_class ;;
  seg_map <- swapaxes seg_map 0 1 ;;
  code <- labels_getitem seg_class ;;
  iadd acc (mul_int seg_map code).

(** Lines 26-32: the accumulator after the loop. *)
Definition img (mat_content : mat) : result (ndarray spec_float) :=
  for_each (add_class mat_content) labels_keys (zeros image_size).

(** Line 34; [cast] is the platform's conversion of the values that an
    unsigned 16-bit integer cannot hold. *)
Definition nifti_image (cast : spec_float -> Z) (mat_content : mat)
  : result Nifti1Image :=
  acc <- img mat_content ;;
  Ok (mk_Nifti1Image (ushort cast acc) None).

(** Line 36: the path the image is saved under. *)
Definition save_path (subject : string) : string :=
  os_path_join path_save_labels ("AT_" +:+ subject +:+ ".nii.gz").

(** Lines 19-36, one iteration of the loop over the subjects; [saved] is the
    log of the files written so far. *)
Definition convert_subject (cast : spec_float -> Z) (fs : filesystem)
    (processed : list string) (saved : list (string * Nifti1Image))
    (subject : string) : result (list (string * Nifti1Image)) :=
  if String.eqb subject "103828_30" then Ok saved
  else if already_processed_test subject processed then Ok saved
  else
    mat_content <-
      loadmat fs (os_path_join (os_path_join root_mat_files subject) mat_file_name) ;;
    image <- nifti_image cast mat_content ;;
    Ok (saved ++ [(save_path subject, image)])%list.

(** The loop over the subjects.  An exception ends the run; what was saved
    before stays. *)
Fixpoint convert_subjects (cast : spec_float -> Z) (fs : filesystem)
    (processed : list string) (subjects : list string)
    (saved : list (string * Nifti1Image))
  : list (string * Nifti1Image) * option exn :=
  match subjects with
  | [] => (saved, None)
  | subject :: rest =>
      match convert_subject cast fs processed saved subject with
      | Ok saved' => convert_subjects cast fs processed rest saved'
      | Raise e => (saved, Some e)
      end
  end.

(** The whole script. *)
Definition main (cast : spec_float -> Z) (fs : filesystem)
  : list (string * Nifti1Image) * option exn :=
  match labels_already_processed fs with
  | Raise e => ([], Some e)
  | Ok processed =>
      match os_listdir fs root_mat_files with
      | Raise e => ([], Some e)
      | Ok subjects => convert_subjects cast fs processed subjects []
      end
  end.

(** *** The composite, voxel by voxel

    What follows describes the composite one voxel at a time, with the
    operations of the element types alone. *)

(** A mask fits the accumulator when, with its axes 0 and 1 swapped, it can
    be added into an array of the target shape. *)
Definition fits (mask : array) : bool :=
  broadcastable (swap01 (array_shape mask)) image_size.

(** The element of [mask] that is added into position [(i, j, k)] of the
    accumulator: [mask[j, i, k]], with the index 0 along an axis of extent 1
    (which is stretched). *)
Definition source_voxel (mask : array) (i j k : nat) : element :=
  let '(d0, d1, d2) := array_shape mask in
  element_at mask (bidx d0 j) (bidx d1 i) (bidx d2 k).

(** An element times a label code, as the [float64] that is added into the
    accumulator: the product is taken in the type of the element, then
    converted. *)
Definition class_term (e : element) (code : Z) : spec_float :=
  match e with
  | Float64 x => SFmul 53 1024 x (binary_normalize 53 1024 code 0 false)
  | Float32 x =>
      float64_of_float32 (SFmul 24 128 x (binary_normalize 24 128 code 0 false))
  | Int t z => binary_normalize 53 1024 (wrap_int t (z * code)) 0 false
  | Bool b => binary_normalize 53 1024 (wrap_int int64 (Z.b2z b * code)) 0 false
  end.

(** The sum of the four class values of a voxel, each times its code, as
    the loop accumulates it from zero, in [float64]. *)
Definition weighted_sum (bg at_ lt vat : element) : spec_float :=
  SFadd 53 1024
    (SFadd 53 1024
       (SFadd 53 1024
          (SFadd 53 1024 (S754_zero false) (class_term bg 0))
          (class_term at_ 1))
       (class_term lt 2))
    (class_term vat 3).

(** The image built from four masks that fit. *)
Definition composite_of (cast : spec_float -> Z) (p_bg p_at p_lt p_vat : array)
  : Nifti1Image :=
  mk_Nifti1Image
    (mk_ndarray image_size
       (fun i j k =>
          ushort_of_float cast
            (weighted_sum (source_voxel p_bg i j k) (source_voxel p_at i j k)
               (source_voxel p_lt i j k) (source_voxel p_vat i j k))))
    None.

(** The integer part of a [float64], its fraction dropped (rounding towards
    zero); NaN and the infinities have none.  A finite value is
    [(-1)^s * m * 2^e]. *)
Definition integer_part (x : spec_float) : option Z :=
  match x with
  | S754_zero _ => Some 0%Z
  | S754_finite s m e =>
      Some (if (0 <=? e)%Z then cond_Zopp s (Zpos m * 2 ^ e)
            else Z.quot (cond_Zopp s (Zpos m)) (2 ^ (- e)))
  | S754_infinity _ | S754_nan => None
  end.

(** An element that is neither NaN nor infinite. *)
Definition is_finite (e : element) : bool :=
  match e with
  | Float64 (S754_nan | S754_infinity _) => false
  | Float32 (S754_nan | S754_infinity _) => false
  | _ => true
  end.

(** An element equal to 0: either zero of a float type, the integer 0,
    [False]. *)
Definition is_zero (e : element) : bool :=
  match e with
  | Float64 (S754_zero _) | Float32 (S754_zero _) => true
  | Int _ z => (z =? 0)%Z
  | Bool b => negb b
  | _ => false
  end.

(** An element equal to 1: the 1.0 of a float type, the integer 1,
    [True]. *)
Definition is_one (e : element) : bool :=
  match e with
  | Float64 (S754_finite false m e) => (m =? 4503599627370496)%positive && (e =? -52)%Z
  | Float32 (S754_finite false m e) => (m =? 8388608)%positive && (e =? -23)%Z
  | Int _ z => (z =? 1)%Z
  | Bool b => b
  | _ => false
  end.

(** An element equal to 1 ([one = true]) or to 0 ([one = false]). *)
Definition is_bit (e : element) (one : bool) : bool :=
  if one then is_one e else is_zero e.

(** Two accumulators with the same shape and the same elements. *)
Definition same_acc (a b : ndarray spec_float) : Prop :=
  shape a = shape b /\
  forall i j k, in_bounds (shape a) i j k -> item a i j k = item b i j k.

Definition same_acc_outcome (r1 r2 : result (ndarray spec_float)) : Prop :=
  match r1, r2 with
  | Ok a, Ok b => same_acc a b
  | Raise e1, Raise e2 => e1 = e2
  | _, _ => False
  end.

(** Two runs of the compositor end the same way: with the same exception,
    or with images of the same data and affine. *)
Definition same_outcome (r1 r2 : result Nifti1Image) : Prop :=
  match r1, r2 with
  | Ok a, Ok b => same_array (dataobj a) (dataobj b) /\ affine a = affine b
  | Raise e1, Raise e2 => e1 = e2
  | _, _ => False
  end.

(** The expression of line 16 that turns the name of a file of the output
    directory into a subject key. *)
Definition processed_key (name : string) : string :=
  join "_" (slice 1 3 (split "_" name)).

(** Line 36: the name of the file written for a subject. *)
Definition file_name (subject : string) : string :=
  "AT_" +:+ subject +:+ ".nii.gz".

(** Lines 19-20: the subjects of a listing that are not skipped. *)
Definition not_skipped (subjects : list string) : list string :=
  List.filter (fun subject => negb (String.eqb subject "103828_30")) subjects.

(** Line 24: the path of the .mat file of a subject. *)
Definition mat_path (subject : string) : string :=
  os_path_join (os_path_join root_mat_files subject) mat_file_name.

End ConvertMatToNifti.

(** Inputs to evaluate the script on. *)

Module ConvertExamples.
Import NumPy ConvertMatToNifti.

(** A [float64] mask of the shape the script expects, (260, 320, 316), with
    the same value everywhere. *)
Definition full_mask (v : spec_float) : array :=
  Float64Array (mk_ndarray (260, 320, 316) (fun _ _ _ => v)).

(** The same with [uint8] elements. *)
Definition full_uint8 (v : Z) : array :=
  IntArray uint8 (mk_ndarray (260, 320, 316) (fun _ _ _ => v)).

(** Whether [(i, j, k)] is the voxel [(p0, p1, p2)]. *)
Definition at_point (p0 p1 p2 i j k : nat) : bool :=
  (i =? p0)%nat && (j =? p1)%nat && (k =? p2)%nat.

(** Masks of shape [sh] that are 1 at one voxel and 0 elsewhere, in three
    dtypes. *)
Definition point_mask (sh : shape3) (p0 p1 p2 : nat) : array :=
  IntArray uint8 (mk_ndarray sh (fun i j k => Z.b2z (at_point p0 p1 p2 i j k))).

Definition point_float64 (sh : shape3) (p0 p1 p2 : nat) : array :=
  Float64Array
    (mk_ndarray sh
       (fun i j k => if at_point p0 p1 p2 i j k then float64_of_Z 1
                     else S754_zero false)).

Definition point_float32 (sh : shape3) (p0 p1 p2 : nat) : array :=
  Float32Array
    (mk_ndarray sh
       (fun i j k => if at_point p0 p1 p2 i j k then float32_of_Z 1
                     else S754_zero true)).

Definition mat_of (p_bg p_at p_lt p_vat : array) : mat :=
  <["P_BG" := p_bg]> (<["P_AT" := p_at]> (<["P_LT" := p_lt]>
    (<["P_VAT" := p_vat]> ∅))).

(** A subject whose tissue masks are disjoint points. *)
Definition disjoint_mat : mat :=
  mat_of (full_mask (S754_zero false))
    (point_mask (260, 320, 316) 0 0 0)
    (point_float64 (260, 320, 316) 1 0 0)
    (point_float32 (260, 320, 316) 5 7 9).

(** The same subject with a background mask that is 3.5 everywhere, and
    with one that is NaN everywhere. *)
Definition disjoint_mat_other_bg : mat :=
  mat_of (full_mask (binary_normalize 53 1024 7 (-1) false))
    (point_mask (260, 320, 316) 0 0 0)
    (point_float64 (260, 320, 316) 1 0 0)
    (point_float32 (260, 320, 316) 5 7 9).

Definition disjoint_mat_nan_bg : mat :=
  mat_of (full_mask S754_nan)
    (point_mask (260, 320, 316) 0 0 0)
    (point_float64 (260, 320, 316) 1 0 0)
    (point_float32 (260, 320, 316) 5 7 9).

(** A subject whose three tissue masks all cover every voxel. *)
Definition overlap_mat : mat :=
  mat_of (full_mask (S754_zero false)) (full_uint8 1) (full_uint8 1) (full_uint8 1).


(** A subject whose P_AT mask is 2.75 everywhere. *)
Definition fraction_mat : mat :=
  mat_of (full_mask (S754_zero false))
    (full_mask (binary_normalize 53 1024 11 (-2) false))
    (full_uint8 0) (full_uint8 0).

(** The masks of the example of section 8 of the specification, of shape
    (2, 2, 1). *)
Definition small_mat : mat :=
  mat_of (point_mask (2, 2, 1) 9 9 9)
    (point_mask (2, 2, 1) 0 0 0)
    (point_mask (2, 2, 1) 1 0 0)
    (point_mask (2, 2, 1) 9 9 9).

(** Masks of shape (1, 1, 1): they are broadcast. *)
Definition unit_mat : mat :=
  mat_of (point_mask (1, 1, 1) 9 9 9)
    (point_mask (1, 1, 1) 0 0 0)
    (point_mask (1, 1, 1) 9 9 9)
    (point_mask (1, 1, 1) 9 9 9).

(** Two platforms: one that gives 0 for every value that an unsigned 16-bit
    integer cannot hold, and one that saturates (0 for NaN and the negative
    values, 65535 for the large ones). *)
Definition zero_cast (x : spec_float) : Z := 0.


(** A run of the script: two subject directories, one of them the subject
    that is always skipped, and an output directory that already holds the
    file of the other subject. *)
Definition example_fs : filesystem :=
  mk_filesystem
    (<[root_mat_files := ["103828_30"; "100000_30"]]>
       (<[path_save_labels := ["AT_100000_30.nii.gz"]]> ∅))
    (<["/mnt/data/rawdata/NAKO/AT_NAKO/100000_30/rework.mat" := disjoint_mat]> ∅).

(** The image written for the subject of [example_fs]. *)
Definition disjoint_image (cast : spec_float -> Z) : Nifti1Image :=
  composite_of cast (full_mask (S754_zero false))
    (point_mask (260, 320, 316) 0 0 0)
    (point_float64 (260, 320, 316) 1 0 0)
    (point_float32 (260, 320, 316) 5 7 9).

End ConvertExamples.

(** ** src/models/basic_block.py *)

Module BasicBlock.

(** Python values that [block] handles: the items of [order] (strings or
    [None]), the items of [order_param] ([None] or a dict of parameters) and
    the parameters themselves. *)
Inductive atom : Type :=
| ANone
| ABool (b : bool)
| AInt (z : Z)
| AFloat (q : Q)
| AStr (s : string)
| ATuple (l : list Z).

Inductive value : Type :=
| VAtom (a : atom)
| VDict (d : gmap string atom).

Definition VNone : value := VAtom ANone.
Definition VStr (s : string) : value := VAtom (AStr s).

(** [v == s] for a string literal [s]. *)
Definition eq_str (v : value) (s : string) : bool :=
  match v with
  | VAtom (AStr s') => String.eqb s' s
  | _ => false
  end.

(** [v is not None]. *)
Definition is_not_None (v : value) : bool :=
  match v with
  | VAtom ANone => false
  | _ => true
  end.

(** [v[key]] for a string key: only a dict can be indexed by a string. *)
Definition subscript (v : value) (key : string) : result atom :=
  match v with
  | VDict d =>
      match d !! key with
      | Some a => Ok a
      | None => Raise (KeyError key)
      end
  | VAtom _ => Raise TypeError
  end.

(** *** The store of list objects

    [order] and [order_param] are Python lists: [block] appends to [order]
    in place, and the returned [func] reads both lists when it is called.
    A list object is a location of the store. *)
Abbreviation loc := nat.
Abbreviation store := (list (list value)).

Definition read (st : store) (l : loc) : list value := default [] (st !! l).

(** [l.append(v)]. *)
Definition append (st : store) (l : loc) (v : value) : store :=
  <[l := (read st l ++ [v])%list]> st.

(** A new list object. *)
Definition alloc (st : store) (items : list value) : store * loc :=
  ((st ++ [items])%list, length st).

(** *** Keras layers

    Layers are recorded with the arguments they are built from; they are not
    executed.  Every layer used here keeps the number of dimensions of its
    input, which is all that [func] reads from the tensor [x]. *)
Record conv_args : Type := mk_conv_args {
  filters : atom;
  kernel_size : atom;
  strides : atom;
  padding : atom;
  kernel_initializer : atom;
  dilation_rate : atom;
  kernel_regularizer : atom
}.

Record pool_args : Type := mk_pool_args {
  pool_size : atom;
  pool_strides : atom;
  pool_padding : atom;
  data_format : atom
}.

Inductive layer : Type :=
| Conv3D (a : conv_args)
| Conv2D (a : conv_args)
| Conv3DTranspose (a : conv_args)
| Conv2DTranspose (a : conv_args)
| BatchNormalization
| ReLU
| LeakyReLU (alpha : atom)
| PReLU
| ELU (alpha : atom)
| Softmax
| AveragePooling3D (a : pool_args)
| AveragePooling2D (a : pool_args)
| MaxPooling3D (a : pool_args)
| MaxPooling2D (a : pool_args)
| UpSampling3D
| UpSampling2D
| Dropout (rate : atom).

Definition is_Dropout (l : layer) : bool :=
  match l with
  | Dropout _ => true
  | _ => false
  end.

(** [(c,) * (n - 2)]: empty when [n <= 2]. *)
Definition tuple_of (c : Z) (ndim : nat) : atom := ATuple (replicate (ndim - 2) c).

(** *** [block] *)

(** What [func] closes over. *)
Record closure : Type := mk_closure {
  c_f : atom;
  c_k : atom;
  c_s : atom;
  c_order : loc;
  c_order_param : loc;
  c_order_priority : bool;
  c_dropout_rate : option atom
}.

(** Lines 35-37: [while len(order) < len(order_param): order.append(None)].
    Every turn makes [order] one longer, so [len(order_param)] turns are
    enough. *)
Fixpoint pad_order (fuel : nat) (st : store) (order order_param : loc) : store :=
  match fuel with
  | 0 => st
  | S fuel' =>
      if (length (read st order) <? length (read st order_param))%nat
      then pad_order fuel' (append st order VNone) order order_param
      else st
  end.

(** Lines 43-53: the loop over the keyword arguments, in their order.  The
    state is the store, [name] and [dropout_rate] (unbound until a
    [dropout] key is met). *)
Fixpoint kwargs_loop (kwargs : list (string * atom)) (order : loc)
    (st : store) (name : atom) (dropout_rate : option atom)
  : store * atom * option atom :=
  match kwargs with
  | [] => (st, name, dropout_rate)
  | (key, v) :: rest =>
      let name := if String.eqb key "name" then v else name in
      if String.eqb key "dropout"
      then kwargs_loop rest order (append st order (VStr "d")) name (Some v)
      else kwargs_loop rest order st name dropout_rate
  end.

(** Lines 28-31: the lists used when an argument is [None]. *)
Definition default_order_param : list value := replicate 3 VNone.
Definition default_order : list value := [VStr "c"; VStr "r"; VStr "b"].

(** An argument that is a list object, or a new list when it is [None]. *)
Definition or_default (arg : option loc) (items : list value) (st : store)
  : store * loc :=
  match arg with
  | None => alloc st items
  | Some l => (st, l)
  end.

(** Lines 8-54 and 141: [block] up to the [return func].  [order] and
    [order_param] are [None] or list objects of the store [st]; the result
    is the store after the call and the closure returned, or the exception
    raised. *)
Definition block (f k s : atom) (order order_param : option loc)
    (order_priority : bool) (kwargs : list (string * atom)) (st : store)
  : store * result closure :=
  let '(st, order_param) := or_default order_param default_order_param st in
  let '(st, order) := or_default order default_order st in
  let st := pad_order (length (read st order_param)) st order order_param in
  if negb (length (read st order) =? length (read st order_param))%nat
  then (st, Raise (AssertionError ""))
  else
    let '(st, name, dropout_rate) := kwargs_loop kwargs order st ANone None in
    (st, Ok (mk_closure f k s order order_param order_priority dropout_rate)).

(** Lines 64-96: a convolution or deconvolution item. *)
Definition conv_item (cl : closure) (ndim : nat) (transpose : bool)
    (item_param : value) : result (option layer) :=
  args <-
    (if is_not_None item_param then
       k_init <- subscript item_param "kernel_initializer" ;;
       k_reg <- subscript item_param "kernel_regularizer" ;;
       p <- subscript item_param "padding" ;;
       dr <- subscript item_param "dilation_rate" ;;
       if c_order_priority cl then
         c_f <- subscript item_param "filters" ;;
         c_k <- subscript item_param "kernels" ;;
         c_s <- subscript item_param "strides" ;;
         Ok (mk_conv_args c_f c_k c_s p k_init dr k_reg)
       else Ok (mk_conv_args (c_f cl) (c_k cl) (c_s cl) p k_init dr k_reg)
     else
       Ok (mk_conv_args (c_f cl) (c_k cl) (c_s cl) (AStr "same")
             (AStr "glorot_uniform") (tuple_of 1 ndim) ANone)) ;;
  if negb transpose then
    if (ndim =? 5)%nat then Ok (Some (Conv3D args))
    else if (ndim =? 4)%nat then Ok (Some (Conv2D args))
    else Ok None
  else
    if (ndim =? 5)%nat then Ok (Some (Conv3DTranspose args))
    else if (ndim =? 4)%nat then Ok (Some (Conv2DTranspose args))
    else Ok None.

(** Lines 117-131: the arguments of a pooling item. *)
Definition pool_item_args (ndim : nat) (item_param : value) : result pool_args :=
  if is_not_None item_param then
    ps <- subscript item_param "pool_size" ;;
    st <- subscript item_param "strides" ;;
    p <- subscript item_param "padding" ;;
    df <- subscript item_param "data_format" ;;
    Ok (mk_pool_args ps st p df)
  else Ok (mk_pool_args (tuple_of 2 ndim) ANone (AStr "valid") ANone).

(** Lines 63-137: one turn of the loop of [func]; the layer applied to [x],
    if any. *)
Definition apply_item (cl : closure) (ndim : nat) (item item_param : value)
  : result (option layer) :=
  if eq_str item "c" || eq_str item "dc" then
    conv_item cl ndim (negb (eq_str item "c")) item_param
  else if eq_str item "b" then Ok (Some BatchNormalization)
  else if eq_str item "r" then Ok (Some ReLU)
  else if eq_str item "l" then
    alpha <- subscript item_param "alpha" ;; Ok (Some (LeakyReLU alpha))
  else if eq_str item "p" then Ok (Some PReLU)
  else if eq_str item "e" then
    alpha <- subscript item_param "alpha" ;; Ok (Some (ELU alpha))
  else if eq_str item "s" then Ok (Some Softmax)
  else if eq_str item "t" then Raise TypeError
  else if eq_str item "ap" then
    args <- pool_item_args ndim item_param ;;
    Ok (Some (if (ndim =? 5)%nat then AveragePooling3D args
              else AveragePooling2D args))
  else if eq_str item "mp" then
    args <- pool_item_args ndim item_param ;;
    Ok (Some (if (ndim =? 5)%nat then MaxPooling3D args else MaxPooling2D args))
  else if eq_str item "up" then
    Ok (Some (if (ndim =? 5)%nat then UpSampling3D else UpSampling2D))
  else if eq_str item "d" then
    match c_dropout_rate cl with
    | Some rate => Ok (Some (Dropout rate))
    | None => Raise (NameError "dropout_rate")
    end
  else Ok None.

(** The loop of [func] over the zipped items: the layers applied to [x], in
    order, and the exception that ended the call, if any. *)
Fixpoint run_items (cl : closure) (ndim : nat) (items : list (value * value))
    (applied : list layer) : list layer * option exn :=
  match items with
  | [] => (applied, None)
  | (item, item_param) :: rest =>
      match apply_item cl ndim item item_param with
      | Ok None => run_items cl ndim rest applied
      | Ok (Some l) => run_items cl ndim rest (applied ++ [l])%list
      | Raise e => (applied, Some e)
      end
  end.

(** Lines 56-139: [func(x)] for a tensor [x] of [ndim] dimensions, called on
    the store [st]. *)
Definition func (cl : closure) (st : store) (ndim : nat)
  : list layer * option exn :=
  run_items cl ndim (zip (read st (c_order cl)) (read st (c_order_param cl))) [].

(** *** [block_FCN] *)

Definition block_FCN_message : string :=
  "Number of hidden neurons per layer should be equal to number" +:+
  "of hidden layers".

(** Lines 145-148.  The inner [func] is defined but never returned: a call
    that passes the assertion returns [None].  The parameters [activation],
    [classification] and [classes] are read by the inner [func] only. *)
Definition block_FCN (hidden_layers : Z) (neurons_layer : list Z) : result unit :=
  if negb (hidden_layers =? Z.of_nat (length neurons_layer))%Z
  then Ok tt
  else Raise (AssertionError block_FCN_message).

(** The items of a list argument as [block] sees them: those of the list
    passed, or the default ones. *)
Definition effective (arg : option loc) (items : list value) (st : store)
  : option (list value) :=
  match arg with
  | None => Some items
  | Some l => st !! l
  end.

(** The [dropout] entries of the keyword arguments. *)
Definition dropout_keys (kwargs : list (string * atom)) : list (string * atom) :=
  List.filter (fun kv => String.eqb kv.1 "dropout") kwargs.

(** Whether a layer is one that [func] picks for a tensor of [ndim]
    dimensions: the 3-D layers for 5 dimensions, the 2-D convolutions for 4,
    the 2-D pooling and upsampling layers for any number other than 5. *)
Definition layer_for_ndim (ndim : nat) (l : layer) : bool :=
  match l with
  | Conv3D _ | Conv3DTranspose _ | AveragePooling3D _ | MaxPooling3D _
  | UpSampling3D => (ndim =? 5)%nat
  | Conv2D _ | Conv2DTranspose _ => (ndim =? 4)%nat
  | AveragePooling2D _ | MaxPooling2D _ | UpSampling2D => negb (ndim =? 5)%nat
  | _ => true
  end.

(** Whether an item is a convolution or deconvolution item. *)
Definition is_conv_item (item : value) : bool :=
  eq_str item "c" || eq_str item "dc".

End BasicBlock.

(** Calls of [block] to evaluate. *)

Module BasicBlockExamples.
Import BasicBlock.

Definition half : atom := AFloat (1 # 2).

(** [block(order=o, order_param=p, dropout=0.5)] with [o = ['d']] and
    [p = [None]]. *)
Definition explicit_d_store : store := [[VStr "d"]; [VNone]].

Definition explicit_d_call : store * result closure :=
  block (AInt 64) (AInt 3) (AInt 2) (Some 0) (Some 1) false
    [("dropout", half)] explicit_d_store.

(** [block(dropout=0.5)]. *)
Definition default_call : store * result closure :=
  block (AInt 64) (AInt 3) (AInt 2) None None false [("dropout", half)] [].

(** A list [o = ['c', 'r', 'b']] passed as [order] to two calls in a row,
    [block(order=o, order_param=[None] * 3, dropout=0.5)] and then
    [block(order=o, order_param=[None] * 4, dropout=0.5)]. *)
Definition shared_store : store :=
  [[VStr "c"; VStr "r"; VStr "b"]; replicate 3 VNone; replicate 4 VNone].

Definition first_call : store * result closure :=
  block (AInt 64) (AInt 3) (AInt 2) (Some 0) (Some 1) false
    [("dropout", half)] shared_store.

Definition second_call : store * result closure :=
  block (AInt 64) (AInt 3) (AInt 2) (Some 0) (Some 2) false
    [("dropout", half)] first_call.1.

(** [func(x)] of the closure a call returned, on the store the call left,
    for a 4-D tensor. *)
Definition func_of (call : store * result closure) : list layer * option exn :=
  match call.2 with
  | Ok cl => func cl call.1 4
  | Raise e => ([], Some e)
  end.

(** [block(order=['c', 'r', 'b', 'p'])]. *)
Definition long_order_store : store := [[VStr "c"; VStr "r"; VStr "b"; VStr "p"]].

(** [block(order=['c'], order_param=[None] * 3, name='b1', dropout=0.5)]. *)
Definition short_order_store : store := [[VStr "c"]; replicate 3 VNone].

Definition short_order_kwargs : list (string * atom) :=
  [("name", AStr "b1"); ("dropout", half)].

(** [order = ['c', 'r']] with parameters for the convolution. *)
Definition conv_params : gmap string atom :=
  list_to_map
    [("kernel_initializer", AStr "he_normal"); ("kernel_regularizer", ANone);
     ("padding", AStr "valid"); ("dilation_rate", AInt 1);
     ("filters", AInt 16); ("kernels", AInt 5); ("strides", AInt 1)].

Definition conv_params_store : store :=
  [[VStr "c"; VStr "r"]; [VDict conv_params; VNone]].

(** [order = ['r', 'd', 'b']] and [order_param = [None] * 3]. *)
Definition relu_dropout_store : store :=
  [[VStr "r"; VStr "d"; VStr "b"]; replicate 3 VNone].

End BasicBlockExamples.


(** ** Facts on the numpy operations *)

Section NumPyFacts.
Import NumPy.

Lemma bidx_in_range (d i : nat) : i < d -> bidx d i = i.
Proof.
  intros H. unfold bidx. destruct (Nat.eqb_spec d 1) as [-> | _]; lia.
Qed.

(** The index read in a dimension that fits is inside the source. *)
Lemma bidx_fits (s d i : nat) : dim_fits s d = true -> i < d -> bidx s i < s.
Proof.
  unfold dim_fits, bidx. intros H Hi.
  destruct (Nat.eqb_spec s 1) as [-> | Hs]; [ lia | ].
  rewrite orb_false_r in H. apply Nat.eqb_eq in H. lia.
Qed.

Lemma float64_of_Z_0 : float64_of_Z 0 = S754_zero false.
Proof. reflexivity. Qed.

(** Adding a zero of either sign to +0 gives +0. *)
Lemma float64_add_zero_zero (s : bool) :
  SFadd 53 1024 (S754_zero false) (S754_zero s) = S754_zero false.
Proof. destruct s; reflexivity. Qed.

(** The sums of the small integers the label codes produce are exact. *)
Lemma float64_add_small (n c : Z) :
  (0 <= n)%Z -> (0 <= c)%Z -> (n + c <= 6)%Z ->
  SFadd 53 1024 (float64_of_Z n) (float64_of_Z c) = float64_of_Z (n + c).
Proof.
  intros Hn Hc Hs.
  assert (Hcases : (n = 0 \/ n = 1 \/ n = 2 \/ n = 3 \/ n = 4 \/ n = 5 \/ n = 6)%Z)
    by lia.
  assert (Hcases' : (c = 0 \/ c = 1 \/ c = 2 \/ c = 3 \/ c = 4 \/ c = 5 \/ c = 6)%Z)
    by lia.
  repeat (destruct Hcases as [-> | Hcases]);
    repeat (destruct Hcases' as [-> | Hcases']); subst;
    first [ lia | vm_compute; reflexivity ].
Qed.

Lemma float64_add_small_zero (n : Z) (s : bool) :
  (0 <= n <= 6)%Z ->
  SFadd 53 1024 (float64_of_Z n) (S754_zero s) = float64_of_Z n.
Proof.
  intros Hn.
  assert (Hcases : (n = 0 \/ n = 1 \/ n = 2 \/ n = 3 \/ n = 4 \/ n = 5 \/ n = 6)%Z)
    by lia.
  repeat (destruct Hcases as [-> | Hcases]); subst; destruct s; reflexivity.
Qed.

Lemma float_to_Z_small (n : Z) :
  (0 <= n <= 6)%Z -> float_to_Z (float64_of_Z n) = Some n.
Proof.
  intros Hn.
  assert (Hcases : (n = 0 \/ n = 1 \/ n = 2 \/ n = 3 \/ n = 4 \/ n = 5 \/ n = 6)%Z)
    by lia.
  repeat (destruct Hcases as [-> | Hcases]); subst; reflexivity.
Qed.

Lemma ushort_of_float_range (cast : spec_float -> Z) (x : spec_float) :
  (0 <= ushort_of_float cast x < 2 ^ 16)%Z.
Proof.
  unfold ushort_of_float, wrap16.
  destruct (float_to_Z x) as [z | ]; [ | apply Z.mod_pos_bound; lia ].
  destruct (Z.leb_spec 0 z), (Z.ltb_spec z (2 ^ 16)); cbn [andb];
    first [ lia | apply Z.mod_pos_bound; lia ].
Qed.

(** A value whose integer part fits is converted to it. *)
Lemma ushort_of_float_fits (cast : spec_float -> Z) (x : spec_float) (z : Z) :
  float_to_Z x = Some z -> (0 <= z < 2 ^ 16)%Z -> ushort_of_float cast x = z.
Proof.
  intros Hx Hz. unfold ushort_of_float. rewrite Hx.
  destruct (Z.leb_spec 0 z), (Z.ltb_spec z (2 ^ 16)); cbn [andb];
    first [ reflexivity | lia ].
Qed.

(** The other values are left to the platform. *)
Lemma ushort_of_float_other (cast : spec_float -> Z) (x : spec_float) :
  (forall z, float_to_Z x = Some z -> ~ (0 <= z < 2 ^ 16)%Z) ->
  ushort_of_float cast x = wrap16 (cast x).
Proof.
  intros Hx. unfold ushort_of_float.
  destruct (float_to_Z x) as [z | ]; [ | reflexivity ].
  specialize (Hx z eq_refl).
  destruct (Z.leb_spec 0 z), (Z.ltb_spec z (2 ^ 16)); cbn [andb];
    first [ reflexivity | lia ].
Qed.

Lemma ushort_of_float_small (cast : spec_float -> Z) (n : Z) :
  (0 <= n <= 6)%Z -> ushort_of_float cast (float64_of_Z n) = n.
Proof.
  intros Hn. apply ushort_of_float_fits; [ apply float_to_Z_small, Hn | lia ].
Qed.

End NumPyFacts.

(** ** The label compositor *)

Section Compositor.
Import NumPy Py ConvertMatToNifti.

Lemma for_each_cons {A S : Type} (body : S -> A -> result S) (x : A)
    (l : list A) (s : S) :
  for_each body (x :: l) s = (s' <- body s x ;; for_each body l s').
Proof. reflexivity. Qed.

Lemma labels_getitem_P_BG : labels_getitem "P_BG" = Ok 0%Z.
Proof. vm_compute. reflexivity. Qed.

Lemma labels_getitem_P_AT : labels_getitem "P_AT" = Ok 1%Z.
Proof. vm_compute. reflexivity. Qed.

Lemma labels_getitem_P_LT : labels_getitem "P_LT" = Ok 2%Z.
Proof. vm_compute. reflexivity. Qed.

Lemma labels_getitem_P_VAT : labels_getitem "P_VAT" = Ok 3%Z.
Proof. vm_compute. reflexivity. Qed.

(** *** The conversion to integers *)

(** The integer part that the conversion takes is the value with its
    fraction dropped. *)
Lemma float_to_Z_integer_part (x : spec_float) : float_to_Z x = integer_part x.
Proof.
  destruct x as [s | s | | s m e]; try reflexivity.
  unfold float_to_Z, integer_part. f_equal.
  destruct (Z.leb_spec 0 e) as [He | He].
  - rewrite Z.shiftl_mul_pow2 by exact He. reflexivity.
  - rewrite <- (Z.opp_involutive e) at 1.
    rewrite Z.shiftl_opp_r, Z.shiftr_div_pow2 by lia.
    assert (Hpow : (0 < 2 ^ (- e))%Z) by (apply Z.pow_pos_nonneg; lia).
    destruct s; cbn [cond_Zopp].
    + change (Z.neg m) with (- Z.pos m)%Z.
      rewrite Z.quot_opp_l by lia.
      rewrite Z.quot_div_nonneg by lia. reflexivity.
    + rewrite Z.quot_div_nonneg by lia. reflexivity.
Qed.

(** *** One class value times its code *)

(** A finite value times the code 0 is a zero. *)
Lemma class_term_finite_0 (e : element) :
  is_finite e = true -> exists s, class_term e 0 = S754_zero s.
Proof.
  destruct e as [x | x | t z | b]; cbn [is_finite class_term].
  - destruct x; intros H; try discriminate H; eexists; reflexivity.
  - destruct x; intros H; try discriminate H; eexists; reflexivity.
  - intros _. rewrite Z.mul_0_r. exists false. destruct t; reflexivity.
  - intros _. rewrite Z.mul_0_r. exists false. reflexivity.
Qed.

Lemma is_bit_finite (e : element) (one : bool) :
  is_bit e one = true -> is_finite e = true.
Proof.
  destruct one; cbn [is_bit];
    destruct e as [[ | | | ] | [ | | | ] | | ]; cbn; congruence.
Qed.

(** The element 1 times a code is the code. *)
Lemma class_term_one (e : element) (c : Z) :
  is_one e = true -> (0 <= c <= 3)%Z -> class_term e c = float64_of_Z c.
Proof.
  intros He Hc.
  assert (Hcases : (c = 0 \/ c = 1 \/ c = 2 \/ c = 3)%Z) by lia.
  destruct e as [x | x | t z | b]; cbn [is_one] in He.
  - destruct x as [ | | | [ | ] m e]; try discriminate He.
    apply andb_true_iff in He as [Hm He].
    apply Pos.eqb_eq in Hm. apply Z.eqb_eq in He. subst m e.
    destruct Hcases as [-> | [-> | [-> | ->]]]; vm_compute; reflexivity.
  - destruct x as [ | | | [ | ] m e]; try discriminate He.
    apply andb_true_iff in He as [Hm He].
    apply Pos.eqb_eq in Hm. apply Z.eqb_eq in He. subst m e.
    destruct Hcases as [-> | [-> | [-> | ->]]]; vm_compute; reflexivity.
  - apply Z.eqb_eq in He. subst z.
    destruct Hcases as [-> | [-> | [-> | ->]]]; destruct t; vm_compute; reflexivity.
  - subst b.
    destruct Hcases as [-> | [-> | [-> | ->]]]; vm_compute; reflexivity.
Qed.

(** The element 0 times a code is a zero. *)
Lemma class_term_zero (e : element) (c : Z) :
  is_zero e = true -> (0 <= c <= 3)%Z -> exists s, class_term e c = S754_zero s.
Proof.
  intros He Hc.
  assert (Hcases : (c = 0 \/ c = 1 \/ c = 2 \/ c = 3)%Z) by lia.
  destruct e as [x | x | t z | b]; cbn [is_zero] in He.
  - destruct x as [s | | | ]; try discriminate He.
    destruct Hcases as [-> | [-> | [-> | ->]]]; destruct s; eexists;
      vm_compute; reflexivity.
  - destruct x as [s | | | ]; try discriminate He.
    destruct Hcases as [-> | [-> | [-> | ->]]]; destruct s; eexists;
      vm_compute; reflexivity.
  - apply Z.eqb_eq in He. subst z. exists false.
    destruct Hcases as [-> | [-> | [-> | ->]]]; destruct t; vm_compute; reflexivity.
  - destruct b; [ discriminate He | ]. exists false.
    destruct Hcases as [-> | [-> | [-> | ->]]]; vm_compute; reflexivity.
Qed.

(** Adding the term of a class whose element is 0 or 1 to a small integer
    adds the code, or nothing. *)
Lemma add_bit_term (n c : Z) (e : element) (one : bool) :
  (0 <= n)%Z -> (0 <= c <= 3)%Z -> (n + c <= 6)%Z ->
  is_bit e one = true ->
  SFadd 53 1024 (float64_of_Z n) (class_term e c) =
  float64_of_Z (n + Z.b2z one * c).
Proof.
  intros Hn Hc Hs He. destruct one; cbn [is_bit Z.b2z] in *.
  - rewrite (class_term_one e c He Hc), Z.mul_1_l.
    apply float64_add_small; lia.
  - destruct (class_term_zero e c He Hc) as [s ->].
    rewrite Z.mul_0_l, Z.add_0_r. apply float64_add_small_zero. lia.
Qed.

(** The term of a finite background element leaves the zero accumulator as
    it is. *)
Lemma add_background_term (e : element) :
  is_finite e = true ->
  SFadd 53 1024 (S754_zero false) (class_term e 0) = S754_zero false.
Proof.
  intros He. destruct (class_term_finite_0 e He) as [s ->].
  apply float64_add_zero_zero.
Qed.

(** The sum at a voxel whose tissue elements are 0 or 1, over a finite
    background element. *)
Lemma weighted_sum_bits (bg at_ lt vat : element) (a l v : bool) :
  is_finite bg = true ->
  is_bit at_ a = true -> is_bit lt l = true -> is_bit vat v = true ->
  weighted_sum bg at_ lt vat =
  float64_of_Z (Z.b2z a + 2 * Z.b2z l + 3 * Z.b2z v).
Proof.
  intros Hbg Hat Hlt Hvat. unfold weighted_sum.
  rewrite (add_background_term bg Hbg).
  change (S754_zero false) with (float64_of_Z 0).
  rewrite (add_bit_term 0 1 at_ a) by (assumption || lia).
  rewrite (add_bit_term _ 2 lt l) by (assumption || destruct a; cbn; lia).
  rewrite (add_bit_term _ 3 vat v)
    by (assumption || destruct a, l; cbn; lia).
  f_equal. lia.
Qed.

(** *** The loop *)

Lemma source_voxel_in_bounds (mask : array) (i j k : nat) :
  in_bounds (array_shape mask) i j k ->
  source_voxel mask j i k = element_at mask i j k.
Proof.
  unfold source_voxel, in_bounds. destruct (array_shape mask) as [[d0 d1] d2].
  intros (Hi & Hj & Hk).
  rewrite !bidx_in_range by assumption. reflexivity.
Qed.

(** The element added into a position of the accumulator is an element of
    the mask. *)
Lemma source_voxel_element (mask : array) (i j k : nat) :
  fits mask = true -> in_bounds image_size i j k ->
  exists i' j' k',
    in_bounds (array_shape mask) i' j' k' /\
    source_voxel mask i j k = element_at mask i' j' k'.
Proof.
  unfold fits, source_voxel, in_bounds, image_size.
  destruct (array_shape mask) as [[d0 d1] d2]. cbn [swap01 broadcastable].
  intros Hf (Hi & Hj & Hk).
  apply andb_true_iff in Hf as [Hf F2]. apply andb_true_iff in Hf as [F1 F0].
  exists (bidx d0 j), (bidx d1 i), (bidx d2 k).
  split; [ | reflexivity ].
  repeat split; eapply bidx_fits; eassumption.
Qed.

Lemma add_class_missing (mc : mat) (acc : ndarray spec_float) (key : string) :
  mc !! key = None -> add_class mc acc key = Raise (KeyError key).
Proof. intros Hm. unfold add_class, getitem. rewrite Hm. reflexivity. Qed.

(** One turn of the loop, in closed form. *)
Lemma add_class_found (mc : mat) (acc : ndarray spec_float) (mask : array)
    (key : string) (code : Z) :
  mc !! key = Some mask -> labels_getitem key = Ok code ->
  add_class mc acc key =
  if broadcastable (swap01 (array_shape mask)) (shape acc) then
    Ok (mk_ndarray (shape acc)
          (fun i j k =>
             SFadd 53 1024 (item acc i j k)
               (class_term (source_voxel mask i j k) code)))
  else Raise ValueError.
Proof.
  intros Hm Hc. unfold add_class, getitem. rewrite Hm. cbn [rbind].
  destruct mask as [[[[d0 d1] d2] f] | [[[d0 d1] d2] f] | t [[[d0 d1] d2] f]
                   | [[[d0 d1] d2] f]];
    cbn [swapaxes swap_items shape rbind]; rewrite Hc; cbn [rbind];
    unfold iadd; cbn [mul_int map_items array_shape shape swap01 item];
    destruct (broadcastable (d1, d0, d2) (shape acc)); reflexivity.
Qed.

Lemma add_class_shape (mc : mat) (acc acc' : ndarray spec_float) (key : string) :
  add_class mc acc key = Ok acc' -> shape acc' = shape acc.
Proof.
  unfold add_class.
  destruct (getitem mc key) as [m | e]; cbn [rbind]; [ | discriminate ].
  destruct (swapaxes m 0 1) as [sw | e]; cbn [rbind]; [ | discriminate ].
  destruct (labels_getitem key) as [code | e]; cbn [rbind]; [ | discriminate ].
  unfold iadd.
  destruct (broadcastable (array_shape (mul_int sw code)) (shape acc));
    [ | discriminate ].
  destruct (array_shape (mul_int sw code)) as [[s0 s1] s2].
  intros [= <-]. reflexivity.
Qed.

(** When every mask fits, the accumulator has the target shape and holds at
    each position the weighted sum of the four mask elements read there. *)
Lemma img_fits (mc : mat) (p_bg p_at p_lt p_vat : array) :
  mc !! "P_BG" = Some p_bg -> mc !! "P_AT" = Some p_at ->
  mc !! "P_LT" = Some p_lt -> mc !! "P_VAT" = Some p_vat ->
  fits p_bg = true -> fits p_at = true -> fits p_lt = true -> fits p_vat = true ->
  img mc =
  Ok (mk_ndarray image_size
        (fun i j k =>
           weighted_sum (source_voxel p_bg i j k) (source_voxel p_at i j k)
             (source_voxel p_lt i j k) (source_voxel p_vat i j k))).
Proof.
  intros Hbg Hat Hlt Hvat Fbg Fat Flt Fvat. unfold img, fits in *.
  change labels_keys with ["P_BG"; "P_AT"; "P_LT"; "P_VAT"].
  rewrite for_each_cons.
  rewrite (add_class_found mc _ p_bg "P_BG" 0 Hbg labels_getitem_P_BG).
  cbn [zeros shape]. rewrite Fbg. cbn [rbind]. rewrite for_each_cons.
  rewrite (add_class_found mc _ p_at "P_AT" 1 Hat labels_getitem_P_AT).
  cbn [shape]. rewrite Fat. cbn [rbind]. rewrite for_each_cons.
  rewrite (add_class_found mc _ p_lt "P_LT" 2 Hlt labels_getitem_P_LT).
  cbn [shape]. rewrite Flt. cbn [rbind]. rewrite for_each_cons.
  rewrite (add_class_found mc _ p_vat "P_VAT" 3 Hvat labels_getitem_P_VAT).
  cbn [shape]. rewrite Fvat. reflexivity.
Qed.

(** A mask that does not fit makes the in-place addition raise. *)
Lemma img_unfit (mc : mat) (p_bg p_at p_lt p_vat : array) :
  mc !! "P_BG" = Some p_bg -> mc !! "P_AT" = Some p_at ->
  mc !! "P_LT" = Some p_lt -> mc !! "P_VAT" = Some p_vat ->
  fits p_bg && fits p_at && fits p_lt && fits p_vat = false ->
  img mc = Raise ValueError.
Proof.
  intros Hbg Hat Hlt Hvat F. unfold img, fits in *.
  change labels_keys with ["P_BG"; "P_AT"; "P_LT"; "P_VAT"].
  rewrite for_each_cons.
  rewrite (add_class_found mc _ p_bg "P_BG" 0 Hbg labels_getitem_P_BG).
  cbn [zeros shape].
  destruct (broadcastable (swap01 (array_shape p_bg)) image_size); [ | reflexivity ].
  cbn [rbind]. rewrite for_each_cons.
  rewrite (add_class_found mc _ p_at "P_AT" 1 Hat labels_getitem_P_AT).
  cbn [shape].
  destruct (broadcastable (swap01 (array_shape p_at)) image_size); [ | reflexivity ].
  cbn [rbind]. rewrite for_each_cons.
  rewrite (add_class_found mc _ p_lt "P_LT" 2 Hlt labels_getitem_P_LT).
  cbn [shape].
  destruct (broadcastable (swap01 (array_shape p_lt)) image_size); [ | reflexivity ].
  cbn [rbind]. rewrite for_each_cons.
  rewrite (add_class_found mc _ p_vat "P_VAT" 3 Hvat labels_getitem_P_VAT).
  cbn [shape].
  destruct (broadcastable (swap01 (array_shape p_vat)) image_size); [ | reflexivity ].
  discriminate F.
Qed.

(** The accumulation succeeds only with the four masks present and
    fitting. *)
Lemma img_Ok_inv (mc : mat) (acc : ndarray spec_float) :
  img mc = Ok acc ->
  exists p_bg p_at p_lt p_vat,
    mc !! "P_BG" = Some p_bg /\ mc !! "P_AT" = Some p_at /\
    mc !! "P_LT" = Some p_lt /\ mc !! "P_VAT" = Some p_vat /\
    fits p_bg = true /\ fits p_at = true /\ fits p_lt = true /\ fits p_vat = true.
Proof.
  intros H.
  destruct (mc !! "P_BG") as [p_bg | ] eqn:Hbg.
  2: { unfold img in H. change labels_keys with ["P_BG"; "P_AT"; "P_LT"; "P_VAT"] in H.
       rewrite for_each_cons, (add_class_missing mc _ _ Hbg) in H. discriminate H. }
  destruct (fits p_bg) eqn:Fbg.
  2: { unfold img, fits in *.
       change labels_keys with ["P_BG"; "P_AT"; "P_LT"; "P_VAT"] in H.
       rewrite for_each_cons,
         (add_class_found mc _ p_bg "P_BG" 0 Hbg labels_getitem_P_BG) in H.
       cbn [zeros shape] in H. rewrite Fbg in H. discriminate H. }
  assert (S1 : forall acc1,
             add_class mc (zeros image_size) "P_BG" = Ok acc1 ->
             shape acc1 = image_size).
  { intros acc1 E. apply add_class_shape in E. exact E. }
  unfold img in H. change labels_keys with ["P_BG"; "P_AT"; "P_LT"; "P_VAT"] in H.
  rewrite for_each_cons in H.
  destruct (add_class mc (zeros image_size) "P_BG") as [a1 | e] eqn:E1;
    [ | discriminate H ].
  cbn [rbind] in H. specialize (S1 a1 eq_refl).
  rewrite for_each_cons in H.
  destruct (mc !! "P_AT") as [p_at | ] eqn:Hat;
    [ | rewrite (add_class_missing mc _ _ Hat) in H; discriminate H ].
  rewrite (add_class_found mc a1 p_at "P_AT" 1 Hat labels_getitem_P_AT) in H.
  rewrite S1 in H. fold (fits p_at) in H.
  destruct (fits p_at) eqn:Fat; [ | discriminate H ].
  cbn [rbind] in H. rewrite for_each_cons in H.
  destruct (mc !! "P_LT") as [p_lt | ] eqn:Hlt;
    [ | rewrite (add_class_missing mc _ _ Hlt) in H; discriminate H ].
  rewrite (add_class_found mc _ p_lt "P_LT" 2 Hlt labels_getitem_P_LT) in H.
  cbn [shape] in H. fold (fits p_lt) in H.
  destruct (fits p_lt) eqn:Flt; [ | discriminate H ].
  cbn [rbind] in H. rewrite for_each_cons in H.
  destruct (mc !! "P_VAT") as [p_vat | ] eqn:Hvat;
    [ | rewrite (add_class_missing mc _ _ Hvat) in H; discriminate H ].
  rewrite (add_class_found mc _ p_vat "P_VAT" 3 Hvat labels_getitem_P_VAT) in H.
  cbn [shape] in H. fold (fits p_vat) in H.
  destruct (fits p_vat) eqn:Fvat; [ | discriminate H ].
  exists p_bg, p_at, p_lt, p_vat. repeat split; first [ assumption | reflexivity ].
Qed.

Lemma nifti_image_fits (cast : spec_float -> Z) (mc : mat)
    (p_bg p_at p_lt p_vat : array) :
  mc !! "P_BG" = Some p_bg -> mc !! "P_AT" = Some p_at ->
  mc !! "P_LT" = Some p_lt -> mc !! "P_VAT" = Some p_vat ->
  fits p_bg = true -> fits p_at = true -> fits p_lt = true -> fits p_vat = true ->
  nifti_image cast mc = Ok (composite_of cast p_bg p_at p_lt p_vat).
Proof.
  intros Hbg Hat Hlt Hvat Fbg Fat Flt Fvat. unfold nifti_image.
  rewrite (img_fits mc p_bg p_at p_lt p_vat Hbg Hat Hlt Hvat Fbg Fat Flt Fvat).
  reflexivity.
Qed.

Lemma nifti_image_unfit (cast : spec_float -> Z) (mc : mat)
    (p_bg p_at p_lt p_vat : array) :
  mc !! "P_BG" = Some p_bg -> mc !! "P_AT" = Some p_at ->
  mc !! "P_LT" = Some p_lt -> mc !! "P_VAT" = Some p_vat ->
  fits p_bg && fits p_at && fits p_lt && fits p_vat = false ->
  nifti_image cast mc = Raise ValueError.
Proof.
  intros Hbg Hat Hlt Hvat F. unfold nifti_image.
  rewrite (img_unfit mc p_bg p_at p_lt p_vat Hbg Hat Hlt Hvat F). reflexivity.
Qed.

Lemma nifti_image_Ok_inv (cast : spec_float -> Z) (mc : mat) (image : Nifti1Image) :
  nifti_image cast mc = Ok image ->
  exists p_bg p_at p_lt p_vat,
    mc !! "P_BG" = Some p_bg /\ mc !! "P_AT" = Some p_at /\
    mc !! "P_LT" = Some p_lt /\ mc !! "P_VAT" = Some p_vat /\
    fits p_bg = true /\ fits p_at = true /\ fits p_lt = true /\ fits p_vat = true /\
    image = composite_of cast p_bg p_at p_lt p_vat.
Proof.
  intros H. unfold nifti_image in H.
  destruct (img mc) as [acc | e] eqn:Eacc; [ | discriminate H ].
  destruct (img_Ok_inv mc acc Eacc)
    as (p_bg & p_at & p_lt & p_vat & Hbg & Hat & Hlt & Hvat & Fbg & Fat & Flt & Fvat).
  exists p_bg, p_at, p_lt, p_vat.
  rewrite (img_fits mc p_bg p_at p_lt p_vat Hbg Hat Hlt Hvat Fbg Fat Flt Fvat)
    in Eacc.
  injection Eacc as <-. cbn [rbind] in H. injection H as <-.
  repeat (split; [ assumption | ]). reflexivity.
Qed.

(** *** Accumulators with the same elements *)

Lemma add_class_same_acc (mc : mat) (key : string) (a b : ndarray spec_float) :
  same_acc a b -> same_acc_outcome (add_class mc a key) (add_class mc b key).
Proof.
  intros [Hs Hv]. unfold add_class.
  destruct (getitem mc key) as [m | e]; cbn [rbind]; [ | reflexivity ].
  destruct (swapaxes m 0 1) as [sw | e]; cbn [rbind]; [ | reflexivity ].
  destruct (labels_getitem key) as [code | e]; cbn [rbind]; [ | reflexivity ].
  unfold iadd. rewrite <- Hs.
  destruct (broadcastable (array_shape (mul_int sw code)) (shape a)); [ | reflexivity ].
  destruct (array_shape (mul_int sw code)) as [[s0 s1] s2].
  split; cbn [shape item]; [ reflexivity | ].
  intros i j k Hb. rewrite (Hv i j k Hb). reflexivity.
Qed.

Lemma add_class_same_lookup (mc1 mc2 : mat) (key : string)
    (a : ndarray spec_float) :
  mc1 !! key = mc2 !! key -> add_class mc1 a key = add_class mc2 a key.
Proof. intros E. unfold add_class, getitem. rewrite E. reflexivity. Qed.

Lemma for_each_same_acc (mc1 mc2 : mat) (keys : list string) :
  (forall key, key ∈ keys -> mc1 !! key = mc2 !! key) ->
  forall a b : ndarray spec_float,
    same_acc a b ->
    same_acc_outcome (for_each (add_class mc1) keys a)
      (for_each (add_class mc2) keys b).
Proof.
  induction keys as [ | key keys IH ]; intros Hk a b Hab; cbn [for_each].
  - exact Hab.
  - rewrite (add_class_same_lookup mc1 mc2 key a)
      by (apply Hk; constructor).
    pose proof (add_class_same_acc mc2 key a b Hab) as Hstep.
    destruct (add_class mc2 a key) as [a' | e1],
             (add_class mc2 b key) as [b' | e2];
      cbn [same_acc_outcome rbind] in *; try contradiction.
    + apply IH; [ | exact Hstep ].
      intros key' Hin. apply Hk. constructor. exact Hin.
    + exact Hstep.
Qed.

(** The step of a background mask whose elements are finite leaves an
    accumulator of zeros. *)
Lemma add_background_zeros (mc : mat) (bg : array) :
  mc !! "P_BG" = Some bg ->
  (forall i j k, in_bounds (array_shape bg) i j k ->
     is_finite (element_at bg i j k) = true) ->
  same_acc_outcome (add_class mc (zeros image_size) "P_BG")
    (if fits bg then Ok (zeros image_size) else Raise ValueError).
Proof.
  intros Hbg Hfin.
  rewrite (add_class_found mc _ bg "P_BG" 0 Hbg labels_getitem_P_BG).
  cbn [zeros shape]. fold (fits bg). destruct (fits bg) eqn:Fbg; [ | reflexivity ].
  split; cbn [shape item]; [ reflexivity | ].
  intros i j k Hb.
  destruct (source_voxel_element bg i j k Fbg Hb) as (i' & j' & k' & Hb' & ->).
  apply add_background_term, Hfin, Hb'.
Qed.

Lemma same_acc_outcome_sym (r1 r2 : result (ndarray spec_float)) :
  same_acc_outcome r1 r2 -> same_acc_outcome r2 r1.
Proof.
  destruct r1 as [a1 | e1], r2 as [a2 | e2]; cbn [same_acc_outcome];
    try contradiction; try congruence.
  intros [S V]. split; [ congruence | ].
  intros i j k Hb. symmetry. apply V. rewrite S. exact Hb.
Qed.

Lemma same_acc_outcome_trans (r1 r2 r3 : result (ndarray spec_float)) :
  same_acc_outcome r1 r2 -> same_acc_outcome r2 r3 -> same_acc_outcome r1 r3.
Proof.
  destruct r1 as [a1 | e1], r2 as [a2 | e2], r3 as [a3 | e3];
    cbn [same_acc_outcome]; try contradiction; try congruence.
  intros [S1 V1] [S2 V2]. split; [ congruence | ].
  intros i j k Hb. rewrite (V1 i j k Hb). apply V2. rewrite <- S1. exact Hb.
Qed.

Lemma ushort_same_acc (cast : spec_float -> Z) (a b : ndarray spec_float) :
  same_acc a b -> same_array (ushort cast a) (ushort cast b).
Proof.
  intros [Hs Hv]. split; cbn [ushort map_items shape item]; [ exact Hs | ].
  intros i j k Hb. rewrite (Hv i j k Hb). reflexivity.
Qed.

End Compositor.

(** ** Claims on the conversion script *)

Section ConversionClaims.
Import NumPy Py ConvertMatToNifti ConvertExamples.

Lemma mat_of_lookups (p_bg p_at p_lt p_vat : array) :
  mat_of p_bg p_at p_lt p_vat !! "P_BG" = Some p_bg /\
  mat_of p_bg p_at p_lt p_vat !! "P_AT" = Some p_at /\
  mat_of p_bg p_at p_lt p_vat !! "P_LT" = Some p_lt /\
  mat_of p_bg p_at p_lt p_vat !! "P_VAT" = Some p_vat.
Proof.
  unfold mat_of. split; [ | split; [ | split ] ].
  - apply lookup_insert_eq.
  - rewrite lookup_insert_ne by discriminate. apply lookup_insert_eq.
  - rewrite !lookup_insert_ne by discriminate. apply lookup_insert_eq.
  - rewrite !lookup_insert_ne by discriminate. apply lookup_insert_eq.
Qed.

(** C1: for a subject whose .mat file holds the four class arrays, each of
    which fits the target shape, the script builds an image without affine,
    of the target shape, whose element at every position [(i, j, k)] is the
    conversion to an unsigned 16-bit integer of

      [(((0 + bg * 0) + at * 1) + lt * 2) + vat * 3]

    where [bg], [at], [lt], [vat] are the elements that P_BG, P_AT, P_LT and
    P_VAT hold at [(j, i, k)] (axes 0 and 1 swapped), every product is taken
    in the type of the mask, and the sums are [float64] sums from a [float64]
    zero, in this order.  The conversion gives the integer part of the sum
    when it lies in [0, 2^16), and the platform's 16-bit value otherwise.
    When a class array does not fit, no image is built: the addition raises
    [ValueError]. *)
Theorem composite_volume_by_steps (cast : spec_float -> Z) (mc : mat)
    (p_bg p_at p_lt p_vat : array) :
  mc !! "P_BG" = Some p_bg -> mc !! "P_AT" = Some p_at ->
  mc !! "P_LT" = Some p_lt -> mc !! "P_VAT" = Some p_vat ->
  (fits p_bg && fits p_at && fits p_lt && fits p_vat = true ->
   exists image,
     nifti_image cast mc = Ok image /\
     affine image = None /\
     shape (dataobj image) = image_size /\
     forall i j k,
       let x :=
         SFadd 53 1024
           (SFadd 53 1024
              (SFadd 53 1024
                 (SFadd 53 1024 (S754_zero false)
                    (class_term (source_voxel p_bg i j k) 0))
                 (class_term (source_voxel p_at i j k) 1))
              (class_term (source_voxel p_lt i j k) 2))
           (class_term (source_voxel p_vat i j k) 3) in
       (0 <= item (dataobj image) i j k < 2 ^ 16)%Z /\
       (forall z, integer_part x = Some z -> (0 <= z < 2 ^ 16)%Z ->
          item (dataobj image) i j k = z) /\
       ((forall z, integer_part x = Some z -> ~ (0 <= z < 2 ^ 16)%Z) ->
          item (dataobj image) i j k = (cast x mod 2 ^ 16)%Z)) /\
  (fits p_bg && fits p_at && fits p_lt && fits p_vat = false ->
   nifti_image cast mc = Raise ValueError) /\
  (forall (mask : array) (i j k : nat),
      in_bounds (array_shape mask) j i k ->
      source_voxel mask i j k = element_at mask j i k).
Proof.
  intros Hbg Hat Hlt Hvat. split; [ | split ].
  - intros F.
    apply andb_true_iff in F as [F Fvat]. apply andb_true_iff in F as [F Flt].
    apply andb_true_iff in F as [Fbg Fat].
    exists (composite_of cast p_bg p_at p_lt p_vat).
    split; [ apply nifti_image_fits; assumption | ].
    split; [ reflexivity | ]. split; [ reflexivity | ].
    intros i j k x. unfold composite_of. cbn [dataobj item].
    fold (weighted_sum (source_voxel p_bg i j k) (source_voxel p_at i j k)
            (source_voxel p_lt i j k) (source_voxel p_vat i j k)) in x.
    fold x. split; [ apply ushort_of_float_range | ]. split.
    + intros z Hz Hr. apply ushort_of_float_fits; [ | exact Hr ].
      rewrite float_to_Z_integer_part. exact Hz.
    + intros Hx. apply ushort_of_float_other.
      intros z Hz. apply Hx. rewrite <- float_to_Z_integer_part. exact Hz.
  - apply nifti_image_unfit; assumption.
  - intros mask i j k Hb. apply source_voxel_in_bounds, Hb.
Qed.

(** The subject of the example: the voxel where P_LT is set is written
    as 2. *)
Lemma composite_volume_by_steps_witness :
  exists image,
    nifti_image zero_cast disjoint_mat = Ok image /\
    shape (dataobj image) = (320, 260, 316) /\
    item (dataobj image) 0 1 0 = 2%Z.
Proof.
  destruct (mat_of_lookups (full_mask (S754_zero false))
              (point_mask (260, 320, 316) 0 0 0)
              (point_float64 (260, 320, 316) 1 0 0)
              (point_float32 (260, 320, 316) 5 7 9))
    as (Hbg & Hat & Hlt & Hvat).
  destruct (composite_volume_by_steps zero_cast disjoint_mat _ _ _ _
              Hbg Hat Hlt Hvat) as [Hfit _].
  destruct Hfit as (image & Himage & _ & Hshape & Hvalue); [ reflexivity | ].
  exists image. split; [ exact Himage | ]. split; [ exact Hshape | ].
  destruct (Hvalue 0 1 0) as (_ & Hz & _).
  apply Hz; [ vm_compute; reflexivity | lia ].
Defined.

(** C3, as the code has it.  For four class arrays of equal shape S: when
    S with its axes 0 and 1 swapped is the fixed target shape
    (320, 260, 316), the compositor produces a composite of that shape;
    for any other S whose swap can be broadcast to the target shape, it
    produces a composite of the target shape, which is not the swap of S;
    for every other S the addition raises [ValueError]. *)
Theorem composite_shape (cast : spec_float -> Z) (mc : mat) (S : shape3)
    (p_bg p_at p_lt p_vat : array) :
  mc !! "P_BG" = Some p_bg -> mc !! "P_AT" = Some p_at ->
  mc !! "P_LT" = Some p_lt -> mc !! "P_VAT" = Some p_vat ->
  array_shape p_bg = S -> array_shape p_at = S ->
  array_shape p_lt = S -> array_shape p_vat = S ->
  (swap01 S = image_size ->
   exists image,
     nifti_image cast mc = Ok image /\ shape (dataobj image) = swap01 S) /\
  (swap01 S <> image_size -> broadcastable (swap01 S) image_size = true ->
   exists image,
     nifti_image cast mc = Ok image /\
     shape (dataobj image) = (320, 260, 316) /\
     shape (dataobj image) <> swap01 S) /\
  (broadcastable (swap01 S) image_size = false ->
   nifti_image cast mc = Raise ValueError).
Proof.
  intros Hbg Hat Hlt Hvat Sbg Sat Slt Svat.
  assert (F : forall m : array,
             array_shape m = S -> fits m = broadcastable (swap01 S) image_size).
  { intros m Hm. unfold fits. rewrite Hm. reflexivity. }
  split; [ | split ].
  - intros HS. exists (composite_of cast p_bg p_at p_lt p_vat). split.
    + apply nifti_image_fits; try assumption;
        rewrite F by assumption; rewrite HS; reflexivity.
    + symmetry. exact HS.
  - intros HS HB. exists (composite_of cast p_bg p_at p_lt p_vat). split.
    + apply nifti_image_fits; try assumption;
        rewrite F by assumption; exact HB.
    + split; [ reflexivity | ]. cbn [composite_of dataobj shape].
      intros E. apply HS. symmetry. exact E.
  - intros HB. apply (nifti_image_unfit cast mc p_bg p_at p_lt p_vat);
      try assumption.
    rewrite (F p_bg Sbg), HB. reflexivity.
Qed.

Lemma composite_shape_witness :
  exists image,
    nifti_image zero_cast disjoint_mat = Ok image /\
    shape (dataobj image) = swap01 (260, 320, 316).
Proof.
  destruct (mat_of_lookups (full_mask (S754_zero false))
              (point_mask (260, 320, 316) 0 0 0)
              (point_float64 (260, 320, 316) 1 0 0)
              (point_float32 (260, 320, 316) 5 7 9))
    as (Hbg & Hat & Hlt & Hvat).
  destruct (composite_shape zero_cast disjoint_mat (260, 320, 316) _ _ _ _
              Hbg Hat Hlt Hvat eq_refl eq_refl eq_refl eq_refl)
    as [Hsame _].
  apply Hsame. reflexivity.
Defined.

Lemma small_mat_raises (cast : spec_float -> Z) :
  nifti_image cast small_mat = Raise ValueError.
Proof.
  apply (nifti_image_unfit cast small_mat (point_mask (2, 2, 1) 9 9 9)
           (point_mask (2, 2, 1) 0 0 0) (point_mask (2, 2, 1) 1 0 0)
           (point_mask (2, 2, 1) 9 9 9));
    vm_compute; reflexivity.
Qed.

(** Masks that are broadcast give a composite of the target shape, not of
    their own. *)
Lemma unit_mat_shape (cast : spec_float -> Z) :
  exists image,
    nifti_image cast unit_mat = Ok image /\
    shape (dataobj image) = (320, 260, 316) /\
    item (dataobj image) 100 100 100 = 1%Z.
Proof.
  exists (composite_of cast (point_mask (1, 1, 1) 9 9 9)
            (point_mask (1, 1, 1) 0 0 0) (point_mask (1, 1, 1) 9 9 9)
            (point_mask (1, 1, 1) 9 9 9)).
  split; [ apply nifti_image_fits; vm_compute; reflexivity | ].
  split; [ reflexivity | ]. vm_compute. reflexivity.
Qed.

(** C3 as stated fails: four class arrays of equal shape (2, 2, 1), the
    masks of the example of the specification, give no composite at all. *)
Lemma composite_shape_any_S_fails :
  ~ (forall (cast : spec_float -> Z) (mc : mat) (S : shape3)
            (p_bg p_at p_lt p_vat : array),
        mc !! "P_BG" = Some p_bg -> mc !! "P_AT" = Some p_at ->
        mc !! "P_LT" = Some p_lt -> mc !! "P_VAT" = Some p_vat ->
        array_shape p_bg = S -> array_shape p_at = S ->
        array_shape p_lt = S -> array_shape p_vat = S ->
        exists image,
          nifti_image cast mc = Ok image /\ shape (dataobj image) = swap01 S).
Proof.
  intros H.
  destruct (mat_of_lookups (point_mask (2, 2, 1) 9 9 9)
              (point_mask (2, 2, 1) 0 0 0) (point_mask (2, 2, 1) 1 0 0)
              (point_mask (2, 2, 1) 9 9 9))
    as (Hbg & Hat & Hlt & Hvat).
  destruct (H zero_cast small_mat (2, 2, 1) _ _ _ _
              Hbg Hat Hlt Hvat eq_refl eq_refl eq_refl eq_refl) as [image [E _]].
  rewrite small_mat_raises in E. discriminate E.
Qed.

(** The value written at the swapped position of a voxel where the three
    tissue elements are 0 or 1 and the background element is finite. *)
Lemma bit_voxel (cast : spec_float -> Z) (mc : mat) (image : Nifti1Image)
    (p_bg p_at p_lt p_vat : array) (i j k : nat) (a l v : bool) :
  nifti_image cast mc = Ok image ->
  mc !! "P_BG" = Some p_bg -> mc !! "P_AT" = Some p_at ->
  mc !! "P_LT" = Some p_lt -> mc !! "P_VAT" = Some p_vat ->
  in_bounds (array_shape p_bg) i j k -> in_bounds (array_shape p_at) i j k ->
  in_bounds (array_shape p_lt) i j k -> in_bounds (array_shape p_vat) i j k ->
  is_finite (element_at p_bg i j k) = true ->
  is_bit (element_at p_at i j k) a = true ->
  is_bit (element_at p_lt i j k) l = true ->
  is_bit (element_at p_vat i j k) v = true ->
  item (dataobj image) j i k = (Z.b2z a + 2 * Z.b2z l + 3 * Z.b2z v)%Z.
Proof.
  intros Himg Hbg Hat Hlt Hvat Bbg Bat Blt Bvat Vbg Vat Vlt Vvat.
  destruct (nifti_image_Ok_inv cast mc image Himg)
    as (p_bg' & p_at' & p_lt' & p_vat' & Hbg' & Hat' & Hlt' & Hvat'
        & _ & _ & _ & _ & ->).
  rewrite Hbg in Hbg'. injection Hbg' as <-.
  rewrite Hat in Hat'. injection Hat' as <-.
  rewrite Hlt in Hlt'. injection Hlt' as <-.
  rewrite Hvat in Hvat'. injection Hvat' as <-.
  unfold composite_of. cbn [dataobj item].
  rewrite (source_voxel_in_bounds p_bg i j k Bbg).
  rewrite (source_voxel_in_bounds p_at i j k Bat).
  rewrite (source_voxel_in_bounds p_lt i j k Blt).
  rewrite (source_voxel_in_bounds p_vat i j k Bvat).
  rewrite (weighted_sum_bits _ _ _ _ a l v Vbg Vat Vlt Vvat).
  apply ushort_of_float_small. destruct a, l, v; cbn; lia.
Qed.

(** C4: at a voxel (i, j, k) where the array of one class is 1 and the
    arrays of the three other classes are 0, the composite holds the code of
    that class at the swapped position (j, i, k). *)
Theorem one_hot_voxel_gets_code (cast : spec_float -> Z) (mc : mat)
    (image : Nifti1Image) (c : string) (code : Z) (i j k : nat) :
  nifti_image cast mc = Ok image ->
  (c, code) ∈ labels ->
  (forall (c' : string) (mask : array),
      c' ∈ labels_keys -> mc !! c' = Some mask ->
      in_bounds (array_shape mask) i j k /\
      is_bit (element_at mask i j k) (String.eqb c' c) = true) ->
  item (dataobj image) j i k = code.
Proof.
  intros Himg Hc Hv.
  destruct (nifti_image_Ok_inv cast mc image Himg)
    as (p_bg & p_at & p_lt & p_vat & Hbg & Hat & Hlt & Hvat & _).
  assert (Kbg : "P_BG" ∈ labels_keys) by (cbn; repeat constructor).
  assert (Kat : "P_AT" ∈ labels_keys) by (cbn; repeat constructor).
  assert (Klt : "P_LT" ∈ labels_keys) by (cbn; repeat constructor).
  assert (Kvat : "P_VAT" ∈ labels_keys) by (cbn; repeat constructor).
  destruct (Hv _ _ Kbg Hbg) as [Bbg Vbg].
  destruct (Hv _ _ Kat Hat) as [Bat Vat].
  destruct (Hv _ _ Klt Hlt) as [Blt Vlt].
  destruct (Hv _ _ Kvat Hvat) as [Bvat Vvat].
  rewrite (bit_voxel cast mc image p_bg p_at p_lt p_vat i j k _ _ _
             Himg Hbg Hat Hlt Hvat Bbg Bat Blt Bvat
             (is_bit_finite _ _ Vbg) Vat Vlt Vvat).
  unfold labels in Hc.
  repeat (apply elem_of_cons in Hc as [[= -> ->] | Hc]);
    [ .. | apply elem_of_nil in Hc; destruct Hc ]; reflexivity.
Qed.

Lemma one_hot_voxel_gets_code_witness :
  nifti_image zero_cast disjoint_mat = Ok (disjoint_image zero_cast) /\
  item (dataobj (disjoint_image zero_cast)) 0 1 0 = 2%Z.
Proof.
  assert (E : nifti_image zero_cast disjoint_mat = Ok (disjoint_image zero_cast)).
  { apply nifti_image_fits; vm_compute; reflexivity. }
  split; [ exact E | ].
  apply (one_hot_voxel_gets_code zero_cast disjoint_mat _ "P_LT" 2 1 0 0 E).
  - cbn. repeat constructor.
  - intros c' mask Hk Hm. cbn in Hk.
    repeat (apply elem_of_cons in Hk as [-> | Hk]);
      [ .. | apply elem_of_nil in Hk; destruct Hk ];
      vm_compute in Hm; injection Hm as <-;
      (split; [ cbn; lia | vm_compute; reflexivity ]).
Defined.

(** When every element of the background mask is finite, the accumulation
    is the one over the other classes from an accumulator of zeros, or the
    [ValueError] of a background mask that does not fit. *)
Lemma img_finite_background (mc : mat) (bg : array) :
  mc !! "P_BG" = Some bg ->
  (forall i j k, in_bounds (array_shape bg) i j k ->
     is_finite (element_at bg i j k) = true) ->
  same_acc_outcome (img mc)
    (if fits bg
     then for_each (add_class mc) ["P_AT"; "P_LT"; "P_VAT"] (zeros image_size)
     else Raise ValueError).
Proof.
  intros Hbg Hfin. unfold img.
  change labels_keys with ["P_BG"; "P_AT"; "P_LT"; "P_VAT"].
  rewrite for_each_cons.
  pose proof (add_background_zeros mc bg Hbg Hfin) as Hstep.
  destruct (add_class mc (zeros image_size) "P_BG") as [a1 | e1],
           (fits bg); cbn [same_acc_outcome rbind] in *; try contradiction.
  - apply for_each_same_acc; [ reflexivity | exact Hstep ].
  - exact Hstep.
Qed.

(** C5, as the code has it: two inputs that differ only in the P_BG array,
    of the same shape in both and with finite elements (no NaN, no
    infinity) in both, give the same outcome: the same exception, or
    composites with the same data. *)
Theorem background_mask_irrelevant (cast : spec_float -> Z) (mc1 mc2 : mat)
    (bg1 bg2 : array) :
  mc1 !! "P_BG" = Some bg1 -> mc2 !! "P_BG" = Some bg2 ->
  array_shape bg1 = array_shape bg2 ->
  (forall key : string, key <> "P_BG" -> mc1 !! key = mc2 !! key) ->
  (forall i j k, in_bounds (array_shape bg1) i j k ->
     is_finite (element_at bg1 i j k) = true) ->
  (forall i j k, in_bounds (array_shape bg2) i j k ->
     is_finite (element_at bg2 i j k) = true) ->
  same_outcome (nifti_image cast mc1) (nifti_image cast mc2).
Proof.
  intros H1 H2 Hs Hother Hfin1 Hfin2.
  assert (Hacc : same_acc_outcome (img mc1) (img mc2)).
  { pose proof (img_finite_background mc1 bg1 H1 Hfin1) as A1.
    pose proof (img_finite_background mc2 bg2 H2 Hfin2) as A2.
    assert (Hf : fits bg1 = fits bg2) by (unfold fits; rewrite Hs; reflexivity).
    rewrite <- Hf in A2.
    assert (Hrest : same_acc_outcome
              (for_each (add_class mc1) ["P_AT"; "P_LT"; "P_VAT"] (zeros image_size))
              (for_each (add_class mc2) ["P_AT"; "P_LT"; "P_VAT"] (zeros image_size))).
    { apply for_each_same_acc; [ | split; reflexivity ].
      intros key Hin. apply Hother. intros ->.
      repeat (apply elem_of_cons in Hin as [Hin | Hin]; [ discriminate Hin | ]).
      apply elem_of_nil in Hin. exact Hin. }
    apply (same_acc_outcome_trans _ _ _ A1).
    apply same_acc_outcome_sym in A2.
    destruct (fits bg1); [ | exact A2 ].
    apply (same_acc_outcome_trans _ _ _ Hrest). exact A2. }
  unfold nifti_image.
  destruct (img mc1) as [a1 | e1], (img mc2) as [a2 | e2];
    cbn [same_acc_outcome same_outcome rbind dataobj affine] in *;
    try contradiction; [ | exact Hacc ].
  split; [ apply ushort_same_acc, Hacc | reflexivity ].
Qed.

Lemma background_mask_irrelevant_witness :
  same_outcome (nifti_image zero_cast disjoint_mat)
    (nifti_image zero_cast disjoint_mat_other_bg).
Proof.
  apply (background_mask_irrelevant zero_cast disjoint_mat disjoint_mat_other_bg
           (full_mask (S754_zero false))
           (full_mask (binary_normalize 53 1024 7 (-1) false))).
  - vm_compute. reflexivity.
  - vm_compute. reflexivity.
  - reflexivity.
  - intros key Hkey. unfold disjoint_mat, disjoint_mat_other_bg, mat_of.
    rewrite !(lookup_insert_ne _ "P_BG") by congruence. reflexivity.
  - intros i j k _. reflexivity.
  - intros i j k _. reflexivity.
Defined.

(** With a background mask of NaN every voxel of the accumulator is NaN. *)
Lemma nan_background_image (cast : spec_float -> Z) :
  nifti_image cast disjoint_mat_nan_bg =
  Ok (composite_of cast (full_mask S754_nan)
        (point_mask (260, 320, 316) 0 0 0)
        (point_float64 (260, 320, 316) 1 0 0)
        (point_float32 (260, 320, 316) 5 7 9)) /\
  item (dataobj (composite_of cast (full_mask S754_nan)
                   (point_mask (260, 320, 316) 0 0 0)
                   (point_float64 (260, 320, 316) 1 0 0)
                   (point_float32 (260, 320, 316) 5 7 9))) 0 0 0 =
    wrap16 (cast S754_nan) /\
  item (dataobj (composite_of cast (full_mask S754_nan)
                   (point_mask (260, 320, 316) 0 0 0)
                   (point_float64 (260, 320, 316) 1 0 0)
                   (point_float32 (260, 320, 316) 5 7 9))) 0 1 0 =
    wrap16 (cast S754_nan).
Proof.
  split; [ apply nifti_image_fits; vm_compute; reflexivity | ].
  split; reflexivity.
Qed.

Lemma zero_background_image (cast : spec_float -> Z) :
  nifti_image cast disjoint_mat = Ok (disjoint_image cast) /\
  item (dataobj (disjoint_image cast)) 0 0 0 = 1%Z /\
  item (dataobj (disjoint_image cast)) 0 1 0 = 2%Z.
Proof.
  split; [ apply nifti_image_fits; vm_compute; reflexivity | ].
  split; reflexivity.
Qed.

(** C5 as stated fails, whatever the platform converts NaN to: in
    [float64], NaN * 0 is NaN, so a background mask of NaN turns every
    voxel of the accumulator into NaN and the two voxels that a background
    of zeros leaves at 1 and 2 are written with one and the same value. *)
Lemma background_mask_content_matters :
  ~ (exists cast : spec_float -> Z,
        forall (mc1 mc2 : mat) (bg1 bg2 : array),
          mc1 !! "P_BG" = Some bg1 -> mc2 !! "P_BG" = Some bg2 ->
          array_shape bg1 = array_shape bg2 ->
          (forall key : string, key <> "P_BG" -> mc1 !! key = mc2 !! key) ->
          same_outcome (nifti_image cast mc1) (nifti_image cast mc2)).
Proof.
  intros [cast H].
  destruct (zero_background_image cast) as (E1 & V1 & V2).
  destruct (nan_background_image cast) as (E2 & W1 & W2).
  assert (Hsame : same_outcome (nifti_image cast disjoint_mat)
                    (nifti_image cast disjoint_mat_nan_bg)).
  { apply (H disjoint_mat disjoint_mat_nan_bg
             (full_mask (S754_zero false)) (full_mask S754_nan)).
    - apply mat_of_lookups.
    - apply mat_of_lookups.
    - reflexivity.
    - intros key Hkey. unfold disjoint_mat, disjoint_mat_nan_bg, mat_of.
      rewrite !(lookup_insert_ne _ "P_BG") by congruence. reflexivity. }
  rewrite E1, E2 in Hsame. cbn [same_outcome] in Hsame.
  destruct Hsame as [[_ Hv] _].
  assert (Ha : item (dataobj (disjoint_image cast)) 0 0 0 =
               item (dataobj (disjoint_image cast)) 0 1 0).
  { rewrite (Hv 0 0 0), (Hv 0 1 0) by (cbn; lia). rewrite W1, W2. reflexivity. }
  rewrite V1, V2 in Ha. discriminate Ha.
Qed.



(** A fraction is dropped: 2.75 is written as 2. *)
Lemma fraction_is_truncated (cast : spec_float -> Z) :
  exists image,
    nifti_image cast fraction_mat = Ok image /\
    item (dataobj image) 10 20 30 = 2%Z.
Proof.
  exists (composite_of cast (full_mask (S754_zero false))
            (full_mask (binary_normalize 53 1024 11 (-2) false))
            (full_uint8 0) (full_uint8 0)).
  split; [ apply nifti_image_fits; vm_compute; reflexivity | reflexivity ].
Qed.



(** C2: the test of line 21 is false for every subject key and every list
    of processed keys, so the loop over the subjects runs as if nothing had
    been processed yet. *)
Theorem already_processed_never_skips :
  (forall (subject : string) (processed : list string),
      already_processed_test subject processed = false) /\
  (forall (cast : spec_float -> Z) (fs : filesystem)
          (processed subjects : list string)
          (saved : list (string * Nifti1Image)),
      convert_subjects cast fs processed subjects saved =
      convert_subjects cast fs [] subjects saved).
Proof.
  split.
  - intros subject processed. unfold already_processed_test.
    destruct (List.filter _ processed); reflexivity.
  - intros cast fs processed subjects.
    induction subjects as [ | subject rest IH ]; intros saved; cbn [convert_subjects].
    + reflexivity.
    + unfold convert_subject, already_processed_test. cbn [is_None].
      destruct (String.eqb subject "103828_30"); [ apply IH | ].
      destruct (loadmat fs _) as [mc | e]; cbn [rbind]; [ | reflexivity ].
      destruct (nifti_image cast mc) as [image | e]; cbn [rbind];
        [ apply IH | reflexivity ].
Qed.

(** The subject whose output file exists already is converted again. *)
Lemma main_example (cast : spec_float -> Z) :
  labels_already_processed example_fs = Ok ["100000_30.nii.gz"] /\
  main cast example_fs =
  ([("/mnt/share/rahauei1/AT_Thomas/labels/AT_100000_30.nii.gz",
     disjoint_image cast)], None).
Proof.
  assert (Hp : labels_already_processed example_fs = Ok ["100000_30.nii.gz"])
    by (vm_compute; reflexivity).
  split; [ exact Hp | ]. unfold main. rewrite Hp.
  assert (Hs : os_listdir example_fs root_mat_files = Ok ["103828_30"; "100000_30"])
    by (vm_compute; reflexivity).
  rewrite Hs. cbn [convert_subjects].
  assert (Hskip : forall saved,
             convert_subject cast example_fs ["100000_30.nii.gz"] saved "103828_30" =
             Ok saved) by (intros saved; reflexivity).
  rewrite Hskip. unfold convert_subject.
  change (String.eqb "100000_30" "103828_30") with false.
  change (already_processed_test "100000_30" ["100000_30.nii.gz"]) with false.
  assert (Hl : loadmat example_fs
                 (os_path_join (os_path_join root_mat_files "100000_30")
                    mat_file_name) = Ok disjoint_mat)
    by (vm_compute; reflexivity).
  rewrite Hl. cbn [rbind].
  rewrite (nifti_image_fits cast disjoint_mat (full_mask (S754_zero false))
             (point_mask (260, 320, 316) 0 0 0)
             (point_float64 (260, 320, 316) 1 0 0)
             (point_float32 (260, 320, 316) 5 7 9)) by (vm_compute; reflexivity).
  reflexivity.
Qed.

Lemma string_append_length (s t : string) :
  String.length (s +:+ t) = String.length s + String.length t.
Proof.
  induction s as [ | c s IH ]; simpl; [ reflexivity | ].
  f_equal. exact IH.
Qed.

Lemma append_inj_suffix (t s1 s2 : string) : s1 +:+ t = s2 +:+ t -> s1 = s2.
Proof.
  revert s2. induction s1 as [ | c s1 IH ]; intros [ | c' s2 ] H.
  - reflexivity.
  - apply (f_equal String.length) in H. rewrite !string_append_length in H.
    simpl in H. lia.
  - apply (f_equal String.length) in H. rewrite !string_append_length in H.
    simpl in H. lia.
  - change (String c (s1 +:+ t) = String c' (s2 +:+ t)) in H.
    injection H as -> H. f_equal. apply IH, H.
Qed.

(** C6: the path a subject is saved under is [AT_<subject>.nii.gz] in the
    output directory, a function of the subject key alone, and two subject
    keys with the same path are equal. *)
Theorem save_path_injective :
  (forall subject : string,
      save_path subject =
      path_save_labels +:+ "/" +:+ "AT_" +:+ subject +:+ ".nii.gz") /\
  (forall s1 s2 : string, save_path s1 = save_path s2 -> s1 = s2).
Proof.
  assert (Hpath : forall subject : string,
             save_path subject =
             path_save_labels +:+ "/" +:+ "AT_" +:+ subject +:+ ".nii.gz").
  { intros subject. reflexivity. }
  split; [ exact Hpath | ].
  intros s1 s2 H. rewrite !Hpath in H.
  apply (String.app_inj path_save_labels) in H.
  apply (String.app_inj "/") in H.
  apply (String.app_inj "AT_") in H.
  apply (append_inj_suffix ".nii.gz"), H.
Qed.

End ConversionClaims.

(** ** The store of list objects *)

Section StoreFacts.
Import BasicBlock.

Lemma read_lookup (st : store) (l : loc) (items : list value) :
  st !! l = Some items -> read st l = items.
Proof. intros H. unfold read. rewrite H. reflexivity. Qed.

Lemma append_store_length (st : store) (l : loc) (v : value) :
  length (append st l v) = length st.
Proof. unfold append. apply length_insert. Qed.

Lemma read_append_same (st : store) (l : loc) (v : value) :
  l < length st -> read (append st l v) l = (read st l ++ [v])%list.
Proof.
  intros H. unfold append, read.
  rewrite list_lookup_insert_eq by exact H. reflexivity.
Qed.

Lemma read_append_other (st : store) (l l' : loc) (v : value) :
  l <> l' -> read (append st l v) l' = read st l'.
Proof.
  intros H. unfold append, read.
  rewrite list_lookup_insert_ne by exact H. reflexivity.
Qed.

Lemma read_alloc_new (st : store) (items : list value) :
  read (alloc st items).1 (alloc st items).2 = items.
Proof.
  unfold alloc, read. cbn [fst snd].
  rewrite lookup_app_r by lia. rewrite Nat.sub_diag. reflexivity.
Qed.

Lemma read_alloc_old (st : store) (items : list value) (l : loc) :
  l < length st -> read (alloc st items).1 l = read st l.
Proof.
  intros H. unfold alloc, read. cbn [fst].
  rewrite lookup_app_l by exact H. reflexivity.
Qed.

Lemma alloc_length (st : store) (items : list value) :
  length (alloc st items).1 = S (length st).
Proof. unfold alloc. cbn [fst]. rewrite length_app. cbn. lia. Qed.

(** The padding loop only appends [None] items to [order]. *)
Lemma pad_order_spec (fuel : nat) (st : store) (order order_param : loc) :
  order <> order_param -> order < length st ->
  exists n,
    read (pad_order fuel st order order_param) order =
      (read st order ++ replicate n VNone)%list /\
    read (pad_order fuel st order order_param) order_param = read st order_param /\
    length (pad_order fuel st order order_param) = length st.
Proof.
  intros Hne. revert st.
  induction fuel as [ | fuel IH ]; intros st Hlt; cbn [pad_order].
  - exists 0. rewrite app_nil_r. auto.
  - destruct (length (read st order) <? length (read st order_param))%nat.
    + destruct (IH (append st order VNone)) as (n & Ho & Hp & Hl).
      { rewrite append_store_length. exact Hlt. }
      exists (S n). rewrite Ho, Hp, Hl.
      rewrite read_append_same by exact Hlt.
      rewrite read_append_other by exact Hne.
      rewrite append_store_length. rewrite <- app_assoc. auto.
    + exists 0. rewrite app_nil_r. auto.
Qed.

(** The loop is left because its condition is false, not for lack of
    fuel. *)
Lemma pad_order_exit (fuel : nat) (st : store) (order order_param : loc) :
  order <> order_param -> order < length st ->
  length (read st order_param) - length (read st order) <= fuel ->
  length (read (pad_order fuel st order order_param) order_param) <=
  length (read (pad_order fuel st order order_param) order).
Proof.
  intros Hne. revert st.
  induction fuel as [ | fuel IH ]; intros st Hlt Hfuel; cbn [pad_order].
  - lia.
  - destruct (Nat.ltb_spec (length (read st order)) (length (read st order_param)))
      as [Hlen | Hlen]; [ | exact Hlen ].
    apply IH.
    + rewrite append_store_length. exact Hlt.
    + rewrite read_append_same by exact Hlt.
      rewrite read_append_other by exact Hne.
      rewrite length_app. cbn. lia.
Qed.

(** The loop over the keyword arguments only appends ['d'] items to
    [order]; it appends one for a [dropout] key. *)
Lemma kwargs_loop_spec (kwargs : list (string * atom)) (order : loc) :
  forall (st : store) (name : atom) (dropout_rate : option atom),
    order < length st ->
    exists n,
      read (kwargs_loop kwargs order st name dropout_rate).1.1 order =
        (read st order ++ replicate n (VStr "d"))%list /\
      (forall l, l <> order ->
         read (kwargs_loop kwargs order st name dropout_rate).1.1 l = read st l) /\
      ((exists v, ("dropout", v) ∈ kwargs) -> 0 < n).
Proof.
  induction kwargs as [ | [key v] rest IH ]; intros st name dropout_rate Hlt;
    cbn [kwargs_loop].
  - exists 0. rewrite app_nil_r. split; [ reflexivity | ].
    split; [ reflexivity | ].
    intros [v Hv]. apply elem_of_nil in Hv. destruct Hv.
  - destruct (String.eqb_spec key "dropout") as [-> | Hkey].
    + destruct (IH (append st order (VStr "d"))
                  (if String.eqb "dropout" "name" then v else name) (Some v))
        as (n & Ho & Hp & _).
      { rewrite append_store_length. exact Hlt. }
      exists (S n). rewrite Ho. rewrite read_append_same by exact Hlt.
      rewrite <- app_assoc. split; [ reflexivity | ]. split; [ | lia ].
      intros l Hl. rewrite Hp by exact Hl.
      apply read_append_other. congruence.
    + destruct (IH st (if String.eqb key "name" then v else name) dropout_rate Hlt)
        as (n & Ho & Hp & Hn).
      exists n. split; [ exact Ho | ]. split; [ exact Hp | ].
      intros [v' Hv']. apply Hn. exists v'.
      apply elem_of_cons in Hv' as [[= E _] | Hv']; [ | exact Hv' ].
      symmetry in E. contradiction.
Qed.

End StoreFacts.

(** ** [block] and [func] *)

Section BlockFacts.
Import BasicBlock.

Lemma eq_str_true (v : value) (s : string) : eq_str v s = true <-> v = VStr s.
Proof.
  unfold eq_str, VStr. split.
  - destruct v as [[ | | | | s' | ] | ]; try discriminate.
    intros H. apply String.eqb_eq in H. subst s'. reflexivity.
  - intros ->. apply String.eqb_refl.
Qed.

Lemma eq_str_false (v : value) (s : string) : eq_str v s = false <-> v <> VStr s.
Proof.
  rewrite <- eq_str_true. destruct (eq_str v s); split; congruence.
Qed.

(** Only a ['d'] item makes [func] apply a [Dropout] layer. *)
Lemma apply_item_Dropout (cl : closure) (ndim : nat) (item item_param : value)
    (l : layer) :
  apply_item cl ndim item item_param = Ok (Some l) ->
  is_Dropout l = true -> eq_str item "d" = true.
Proof.
  intros H Hd. destruct l; try discriminate Hd. clear Hd. revert H.
  unfold apply_item, conv_item, pool_item_args, rbind.
  repeat case_match; intros; simplify_eq; reflexivity.
Qed.

Lemma run_items_no_Dropout (cl : closure) (ndim : nat)
    (items : list (value * value)) :
  Forall (fun p => eq_str p.1 "d" = false) items ->
  forall applied : list layer,
    Forall (fun l => is_Dropout l = false) applied ->
    Forall (fun l => is_Dropout l = false) (run_items cl ndim items applied).1.
Proof.
  induction 1 as [ | [item item_param] rest Hitem _ IH ];
    intros applied Happlied; cbn [run_items].
  - exact Happlied.
  - destruct (apply_item cl ndim item item_param) as [[l | ] | e] eqn:E.
    + apply IH. apply Forall_app. split; [ exact Happlied | ].
      constructor; [ | constructor ].
      destruct (is_Dropout l) eqn:Hl; [ | reflexivity ].
      pose proof (apply_item_Dropout _ _ _ _ _ E Hl) as Hd.
      cbn [fst] in Hitem. congruence.
    + apply IH, Happlied.
    + exact Happlied.
Qed.

(** [zip] stops at the end of the shorter list. *)
Lemma zip_app_longer {A B : Type} (l1 l1' : list A) (l2 : list B) :
  length l1 = length l2 -> zip (l1 ++ l1') l2 = zip l1 l2.
Proof.
  revert l2. induction l1 as [ | x l1 IH ]; intros [ | y l2 ] H;
    try discriminate H.
  - destruct l1'; reflexivity.
  - cbn. f_equal. apply IH. cbn in H. lia.
Qed.

Lemma zip_fst_Forall {A B : Type} (P : A -> Prop) (l1 : list A) (l2 : list B) :
  Forall P l1 -> Forall (fun p => P p.1) (zip l1 l2).
Proof.
  intros H. revert l2. induction H as [ | x l1 Hx _ IH ]; intros [ | y l2 ]; cbn;
    constructor; [ exact Hx | apply IH ].
Qed.

(** The two list objects [block] works on, after the defaults. *)
Lemma or_default_spec (order order_param : option loc) (st st1 st2 : store)
    (lo lp : loc) :
  or_default order_param default_order_param st = (st1, lp) ->
  or_default order default_order st1 = (st2, lo) ->
  (forall l, order = Some l -> l < length st /\ order_param <> Some l) ->
  (forall l, order_param = Some l -> l < length st) ->
  exists items params,
    effective order default_order st = Some items /\
    effective order_param default_order_param st = Some params /\
    read st2 lo = items /\ read st2 lp = params /\
    lo <> lp /\ lo < length st2.
Proof.
  intros E1 E2 Ho Hp.
  destruct order_param as [p | ]; cbn [or_default effective] in *.
  - injection E1 as <- <-. specialize (Hp p eq_refl).
    destruct (lookup_lt_is_Some_2 st p Hp) as [params Hparams].
    destruct order as [o | ]; cbn [or_default effective] in *.
    + injection E2 as <- <-. destruct (Ho o eq_refl) as [Hlt Hne].
      destruct (lookup_lt_is_Some_2 st o Hlt) as [items Hitems].
      exists items, params. rewrite (read_lookup _ _ _ Hitems).
      rewrite (read_lookup _ _ _ Hparams).
      repeat split; try assumption. congruence.
    + exists default_order, params.
      pose proof (read_alloc_new st default_order) as Hnew.
      pose proof (read_alloc_old st default_order p Hp) as Hold.
      pose proof (alloc_length st default_order) as Hlen.
      rewrite E2 in Hnew, Hold, Hlen. cbn [fst snd] in *.
      rewrite Hold, (read_lookup _ _ _ Hparams).
      assert (lo = length st) by (unfold alloc in E2; congruence).
      repeat split; try assumption; lia.
  - pose proof (read_alloc_new st default_order_param) as Hnew.
    pose proof (alloc_length st default_order_param) as Hlen.
    assert (Hlp : lp = length st) by (unfold alloc in E1; congruence).
    destruct order as [o | ]; cbn [or_default effective] in *.
    + injection E2 as <- <-. destruct (Ho o eq_refl) as [Hlt _].
      destruct (lookup_lt_is_Some_2 st o Hlt) as [items Hitems].
      pose proof (read_alloc_old st default_order_param o Hlt) as Hold.
      rewrite E1 in Hnew, Hold, Hlen. cbn [fst snd] in *.
      exists items, default_order_param.
      rewrite Hold, (read_lookup _ _ _ Hitems).
      repeat split; try assumption; lia.
    + rewrite E1 in Hnew, Hlen. cbn [fst snd] in *.
      pose proof (read_alloc_new st1 default_order) as Hnew2.
      pose proof (read_alloc_old st1 default_order lp) as Hold2.
      pose proof (alloc_length st1 default_order) as Hlen2.
      rewrite E2 in Hnew2, Hold2, Hlen2. cbn [fst snd] in *.
      assert (Hlo : lo = length st1) by (unfold alloc in E2; congruence).
      exists default_order, default_order_param.
      rewrite Hold2 by lia.
      repeat split; try assumption; lia.
Qed.

End BlockFacts.

(** ** Claims on the block builders *)

Section BlockClaims.
Import BasicBlock BasicBlockExamples.

(** What the two lists hold when [block] returns: [order] is the list the
    caller passed (or the default), padded with [None] up to the length of
    [order_param], followed by the ['d'] items of the keyword loop. *)
Lemma block_Ok_inv (f k s : atom) (order order_param : option loc)
    (order_priority : bool) (kwargs : list (string * atom)) (st st' : store)
    (cl : closure) :
  block f k s order order_param order_priority kwargs st = (st', Ok cl) ->
  (forall l, order = Some l -> l < length st /\ order_param <> Some l) ->
  (forall l, order_param = Some l -> l < length st) ->
  exists items params n m,
    effective order default_order st = Some items /\
    effective order_param default_order_param st = Some params /\
    read st' (c_order cl) =
      ((items ++ replicate n VNone) ++ replicate m (VStr "d"))%list /\
    read st' (c_order_param cl) = params /\
    length (items ++ replicate n VNone) = length params /\
    ((exists v, ("dropout", v) ∈ kwargs) -> 0 < m).
Proof.
  intros Hblock Ho Hp. unfold block in Hblock.
  destruct (or_default order_param default_order_param st) as [st1 lp] eqn:E1.
  destruct (or_default order default_order st1) as [st2 lo] eqn:E2.
  destruct (or_default_spec _ _ _ _ _ _ _ E1 E2 Ho Hp)
    as (items & params & Hitems & Hparams & Ritems & Rparams & Hne & Hlt).
  destruct (pad_order_spec (length (read st2 lp)) st2 lo lp Hne Hlt)
    as (n & Po & Pp & Pl).
  set (st3 := pad_order (length (read st2 lp)) st2 lo lp) in *.
  destruct (Nat.eqb_spec (length (read st3 lo)) (length (read st3 lp)))
    as [Hlen | _]; cbn [negb] in Hblock; [ | discriminate Hblock ].
  destruct (kwargs_loop_spec kwargs lo st3 ANone None) as (m & Ko & Kp & Km).
  { rewrite Pl. exact Hlt. }
  destruct (kwargs_loop kwargs lo st3 ANone None) as [[st4 name] dropout_rate].
  cbn [fst] in Ko, Kp. injection Hblock as <- <-. cbn [c_order c_order_param].
  exists items, params, n, m.
  rewrite Ko, Po, Ritems. rewrite (Kp lp) by congruence. rewrite Pp, Rparams.
  rewrite Po, Pp, Ritems, Rparams in Hlen. auto 10.
Qed.

(** C8, as the code has it: when [order] and [order_param] are two different
    list objects and the [order] list the caller passes holds no ['d'] item
    (or [order] is left to its default), [func] applies no [Dropout] layer,
    with a [dropout] keyword or without: the ['d'] the keyword appends lies
    past the end of [order_param], where [zip] has stopped. *)
Theorem appended_dropout_item_not_reached (f k s : atom)
    (order order_param : option loc) (order_priority : bool)
    (kwargs : list (string * atom)) (st st' : store) (cl : closure) (ndim : nat) :
  block f k s order order_param order_priority kwargs st = (st', Ok cl) ->
  (forall l, order = Some l ->
     l < length st /\ order_param <> Some l /\ VStr "d" ∉ read st l) ->
  (forall l, order_param = Some l -> l < length st) ->
  Forall (fun l => is_Dropout l = false) (func cl st' ndim).1 /\
  ((exists v, ("dropout", v) ∈ kwargs) ->
   length (read st' (c_order_param cl)) < length (read st' (c_order cl)) /\
   last (read st' (c_order cl)) = Some (VStr "d")).
Proof.
  intros Hblock Ho Hp.
  destruct (block_Ok_inv _ _ _ _ _ _ _ _ _ _ Hblock)
    as (items & params & n & m & Hitems & _ & Ro & Rp & Hlen & Hm);
    [ intros l Hl; destruct (Ho l Hl) as (? & ? & _); auto | exact Hp | ].
  split.
  - unfold func. rewrite Ro, Rp. rewrite zip_app_longer by exact Hlen.
    apply run_items_no_Dropout; [ | constructor ].
    apply (zip_fst_Forall (fun v => eq_str v "d" = false)).
    apply Forall_app. split.
    + apply Forall_forall. intros v Hv. apply eq_str_false. intros ->.
      destruct order as [l | ]; cbn [effective] in Hitems.
      * destruct (Ho l eq_refl) as (_ & _ & Hd). apply Hd.
        rewrite (read_lookup _ _ _ Hitems). exact Hv.
      * injection Hitems as <-. unfold default_order in Hv.
        repeat (apply elem_of_cons in Hv as [Hv | Hv]; [ discriminate Hv | ]).
        apply elem_of_nil in Hv. exact Hv.
    + apply Forall_forall. intros v Hv.
      apply elem_of_replicate in Hv as [-> _]. reflexivity.
  - intros Hdrop. specialize (Hm Hdrop). rewrite Ro, Rp. split.
    + rewrite length_app, length_replicate. lia.
    + destruct m as [ | m ]; [ lia | ].
      rewrite replicate_S_end, app_assoc. apply last_snoc.
Qed.

Lemma appended_dropout_item_not_reached_witness :
  exists (st' : store) (cl : closure),
    default_call = (st', Ok cl) /\
    Forall (fun l => is_Dropout l = false) (func cl st' 4).1 /\
    length (read st' (c_order_param cl)) < length (read st' (c_order cl)) /\
    last (read st' (c_order cl)) = Some (VStr "d").
Proof.
  eexists. eexists. split; [ reflexivity | ].
  destruct (appended_dropout_item_not_reached (AInt 64) (AInt 3) (AInt 2)
              None None false [("dropout", half)] [] _ _ 4 eq_refl)
    as [Hnone Hlast].
  - intros l Hl. discriminate Hl.
  - intros l Hl. discriminate Hl.
  - split; [ exact Hnone | ]. apply Hlast. exists half. constructor.
Defined.

Lemma explicit_d_applies_Dropout :
  func_of explicit_d_call = ([Dropout half], None).
Proof. vm_compute. reflexivity. Qed.

(** Without the keyword the same item makes [func] raise: it is the keyword
    that makes the layer applied. *)
Lemma explicit_d_without_keyword :
  func_of (block (AInt 64) (AInt 3) (AInt 2) (Some 0) (Some 1) false []
             explicit_d_store) =
  ([], Some (NameError "dropout_rate")).
Proof. vm_compute. reflexivity. Qed.

(** A list passed as [order] to a call with a [dropout] keyword keeps the
    ['d'] that the call appended: passed again with a longer [order_param],
    the item is reached. *)
Lemma shared_order_list_applies_Dropout :
  Forall (fun l => is_Dropout l = false) (func_of first_call).1 /\
  read first_call.1 0 = [VStr "c"; VStr "r"; VStr "b"; VStr "d"] /\
  exists args,
    func_of second_call =
    ([Conv2D args; ReLU; BatchNormalization; Dropout half], None).
Proof.
  split; [ vm_compute; repeat constructor | ].
  split; [ vm_compute; reflexivity | ].
  eexists. cbv. reflexivity.
Qed.

(** C8 as stated fails: with [order = ['d']], [order_param = [None]] and
    [dropout=0.5], [func] applies [Dropout(0.5)]. *)
Lemma dropout_keyword_can_apply_Dropout :
  ~ (forall (f k s : atom) (order order_param : option loc)
            (order_priority : bool) (kwargs : list (string * atom))
            (st st' : store) (cl : closure) (ndim : nat),
        (exists v, ("dropout", v) ∈ kwargs) ->
        block f k s order order_param order_priority kwargs st = (st', Ok cl) ->
        Forall (fun l => is_Dropout l = false) (func cl st' ndim).1).
Proof.
  intros H.
  specialize (H (AInt 64) (AInt 3) (AInt 2) (Some 0) (Some 1) false
                [("dropout", half)] explicit_d_store _ _ 4
                (ex_intro _ half (list_elem_of_here _ _)) eq_refl).
  vm_compute in H. inversion H as [ | l ls Hl _ ]. discriminate Hl.
Qed.

Lemma pad_order_noop (fuel : nat) (st : store) (order order_param : loc) :
  length (read st order_param) <= length (read st order) ->
  pad_order fuel st order order_param = st.
Proof.
  intros H. destruct fuel as [ | fuel ]; cbn [pad_order]; [ reflexivity | ].
  destruct (Nat.ltb_spec (length (read st order)) (length (read st order_param)));
    [ lia | reflexivity ].
Qed.

(** C9: [block] raises [AssertionError] whenever the effective [order] list
    (the one passed, or the default ['c', 'r', 'b']) is strictly longer than
    the effective [order_param] list (the one passed, or the default
    [[None] * 3]). *)
Theorem block_raises_when_order_longer (f k s : atom)
    (order order_param : option loc) (order_priority : bool)
    (kwargs : list (string * atom)) (st : store) (items params : list value) :
  effective order default_order st = Some items ->
  effective order_param default_order_param st = Some params ->
  length params < length items ->
  (block f k s order order_param order_priority kwargs st).2 =
  Raise (AssertionError "").
Proof.
  intros Hitems Hparams Hlen. unfold block.
  destruct (or_default order_param default_order_param st) as [st1 lp] eqn:E1.
  destruct (or_default order default_order st1) as [st2 lo] eqn:E2.
  destruct (or_default_spec _ _ _ _ _ _ _ E1 E2)
    as (items' & params' & Hitems' & Hparams' & Ritems & Rparams & _ & _).
  - intros l ->. cbn [effective] in Hitems. split.
    + apply lookup_lt_is_Some_1. eauto.
    + intros ->. cbn [effective] in Hparams. rewrite Hitems in Hparams.
      injection Hparams as <-. lia.
  - intros l ->. cbn [effective] in Hparams.
    apply lookup_lt_is_Some_1. eauto.
  - rewrite Hitems in Hitems'. injection Hitems' as <-.
    rewrite Hparams in Hparams'. injection Hparams' as <-.
    rewrite pad_order_noop by (rewrite Ritems, Rparams; lia).
    rewrite Ritems, Rparams.
    destruct (Nat.eqb_spec (length items) (length params)) as [E | _];
      [ lia | reflexivity ].
Qed.

Lemma block_raises_when_order_longer_witness :
  (block (AInt 64) (AInt 3) (AInt 2) (Some 0) None false [] long_order_store).2 =
  Raise (AssertionError "").
Proof.
  apply (block_raises_when_order_longer (AInt 64) (AInt 3) (AInt 2) (Some 0)
           None false [] long_order_store
           [VStr "c"; VStr "r"; VStr "b"; VStr "p"] default_order_param).
  - reflexivity.
  - reflexivity.
  - cbn. lia.
Defined.

(** C7: the assertion of [block_FCN] passes exactly when [hidden_layers]
    differs from [len(neurons_layer)] and fails exactly when they are equal,
    with the message that asks for them to be equal. *)
Theorem block_FCN_assertion_inverted (hidden_layers : Z) (neurons_layer : list Z) :
  (block_FCN hidden_layers neurons_layer = Ok tt <->
   hidden_layers <> Z.of_nat (length neurons_layer)) /\
  (block_FCN hidden_layers neurons_layer =
     Raise (AssertionError
              "Number of hidden neurons per layer should be equal to numberof hidden layers") <->
   hidden_layers = Z.of_nat (length neurons_layer)).
Proof.
  unfold block_FCN.
  destruct (Z.eqb_spec hidden_layers (Z.of_nat (length neurons_layer))) as [E | E];
    cbn [negb]; split; split; intros H;
    try discriminate H; try contradiction; try reflexivity; assumption.
Qed.

(** The default arguments themselves fail the assertion. *)
Lemma block_FCN_defaults_raise :
  block_FCN 2 [50%Z; 100%Z] = Raise (AssertionError block_FCN_message).
Proof. reflexivity. Qed.

End BlockClaims.

(** ** More on the compositor: how it fails, what it computes *)

Section CompositorBehaviour.
Import NumPy Py ConvertMatToNifti ConvertExamples.

Lemma for_each_app {A S : Type} (body : S -> A -> result S) (l1 l2 : list A)
    (s : S) :
  for_each body (l1 ++ l2) s = (s' <- for_each body l1 s ;; for_each body l2 s').
Proof.
  revert s. induction l1 as [ | x l1 IH ]; intros s; cbn [for_each app rbind].
  - reflexivity.
  - destruct (body s x) as [s' | e]; cbn [rbind]; [ apply IH | reflexivity ].
Qed.

Lemma labels_getitem_key (key : string) :
  key ∈ labels_keys -> exists code, labels_getitem key = Ok code.
Proof.
  intros Hin. cbn in Hin.
  repeat (apply elem_of_cons in Hin as [-> | Hin]);
    [ .. | apply elem_of_nil in Hin; destruct Hin ];
    eexists; vm_compute; reflexivity.
Qed.

(** Classes that are present and fit are accumulated without an exception,
    and the accumulator keeps the target shape. *)
Lemma for_each_present (mc : mat) (keys : list string) :
  (forall key, key ∈ keys ->
     key ∈ labels_keys /\ exists m, mc !! key = Some m /\ fits m = true) ->
  forall acc : ndarray spec_float,
    shape acc = image_size ->
    exists acc',
      for_each (add_class mc) keys acc = Ok acc' /\ shape acc' = image_size.
Proof.
  induction keys as [ | key keys IH ]; intros Hk acc Hacc; cbn [for_each].
  - exists acc. split; [ reflexivity | exact Hacc ].
  - destruct (Hk key) as (Hin & m & Hm & Hfit); [ constructor | ].
    destruct (labels_getitem_key key Hin) as [code Hcode].
    rewrite (add_class_found mc acc m key code Hm Hcode).
    rewrite Hacc. unfold fits in Hfit. rewrite Hfit.
    cbn [rbind]. apply IH; [ | reflexivity ].
    intros key' Hin'. apply Hk. constructor. exact Hin'.
Qed.

(** X1: the compositor succeeds exactly when the four class arrays are present
    and each of them fits the target shape; the image is then, voxel by
    voxel, the conversion of the [float64] weighted sum of the four mask
    elements. *)
Theorem nifti_image_succeeds_iff (cast : spec_float -> Z) (mc : mat)
    (image : Nifti1Image) :
  nifti_image cast mc = Ok image <->
  exists p_bg p_at p_lt p_vat,
    mc !! "P_BG" = Some p_bg /\ mc !! "P_AT" = Some p_at /\
    mc !! "P_LT" = Some p_lt /\ mc !! "P_VAT" = Some p_vat /\
    fits p_bg = true /\ fits p_at = true /\ fits p_lt = true /\ fits p_vat = true /\
    image = composite_of cast p_bg p_at p_lt p_vat.
Proof.
  split.
  - apply nifti_image_Ok_inv.
  - intros (p_bg & p_at & p_lt & p_vat & Hbg & Hat & Hlt & Hvat
            & Fbg & Fat & Flt & Fvat & ->).
    apply nifti_image_fits; assumption.
Qed.

(** X2: the first class of the loop whose array is missing raises [KeyError]
    for its name, whatever the later classes are, when the classes before
    it are present and fit. *)
Theorem missing_class_raises_KeyError (cast : spec_float -> Z) (mc : mat)
    (before after : list string) (key : string) :
  labels_keys = (before ++ key :: after)%list ->
  (forall k, k ∈ before -> exists m, mc !! k = Some m /\ fits m = true) ->
  mc !! key = None ->
  nifti_image cast mc = Raise (KeyError key).
Proof.
  intros Hkeys Hbefore Hmissing. unfold nifti_image, img. rewrite Hkeys.
  rewrite for_each_app.
  destruct (for_each_present mc before) with (acc := zeros image_size)
    as (acc' & -> & _); [ | reflexivity | ].
  - intros k Hk. split; [ | apply Hbefore, Hk ].
    rewrite Hkeys. apply elem_of_app. left. exact Hk.
  - cbn [rbind for_each]. rewrite (add_class_missing mc acc' key Hmissing).
    reflexivity.
Qed.

Lemma missing_class_raises_KeyError_witness :
  nifti_image zero_cast (delete "P_LT" overlap_mat) = Raise (KeyError "P_LT").
Proof.
  apply (missing_class_raises_KeyError zero_cast (delete "P_LT" overlap_mat)
           ["P_BG"; "P_AT"] ["P_VAT"] "P_LT").
  - reflexivity.
  - intros k Hk.
    repeat (apply elem_of_cons in Hk as [-> | Hk]);
      [ .. | apply elem_of_nil in Hk; destruct Hk ];
      eexists; split; vm_compute; reflexivity.
  - vm_compute. reflexivity.
Defined.

(** X3: the first class of the loop whose array does not fit the target shape
    raises [ValueError], whatever the later classes are (present or not),
    when the classes before it are present and fit. *)
Theorem unfit_class_raises_ValueError (cast : spec_float -> Z) (mc : mat)
    (before after : list string) (key : string) (mask : array) :
  labels_keys = (before ++ key :: after)%list ->
  (forall k, k ∈ before -> exists m, mc !! k = Some m /\ fits m = true) ->
  mc !! key = Some mask -> fits mask = false ->
  nifti_image cast mc = Raise ValueError.
Proof.
  intros Hkeys Hbefore Hmask Hfit. unfold nifti_image, img. rewrite Hkeys.
  rewrite for_each_app.
  destruct (for_each_present mc before) with (acc := zeros image_size)
    as (acc' & -> & Hshape); [ | reflexivity | ].
  - intros k Hk. split; [ | apply Hbefore, Hk ].
    rewrite Hkeys. apply elem_of_app. left. exact Hk.
  - cbn [rbind for_each].
    destruct (labels_getitem_key key) as [code Hcode].
    { rewrite Hkeys. apply elem_of_app. right. constructor. }
    rewrite (add_class_found mc acc' mask key code Hmask Hcode).
    rewrite Hshape. unfold fits in Hfit. rewrite Hfit.
    reflexivity.
Qed.

Lemma unfit_class_raises_ValueError_witness :
  nifti_image zero_cast
    (delete "P_VAT" (<["P_AT" := point_mask (2, 2, 1) 0 0 0]> overlap_mat)) =
  Raise ValueError.
Proof.
  apply (unfit_class_raises_ValueError zero_cast
           (delete "P_VAT" (<["P_AT" := point_mask (2, 2, 1) 0 0 0]> overlap_mat))
           ["P_BG"] ["P_LT"; "P_VAT"] "P_AT" (point_mask (2, 2, 1) 0 0 0)).
  - reflexivity.
  - intros k Hk.
    repeat (apply elem_of_cons in Hk as [-> | Hk]);
      [ .. | apply elem_of_nil in Hk; destruct Hk ];
      eexists; split; vm_compute; reflexivity.
  - vm_compute. reflexivity.
  - vm_compute. reflexivity.
Defined.

(** X4: where each of the three tissue masks holds 0 or 1 at a voxel and the
    background mask holds a finite value there, the composite holds
    [P_AT + 2 * P_LT + 3 * P_VAT] at the swapped position: overlapping
    masks add their codes. *)
Theorem overlapping_masks_add_codes (cast : spec_float -> Z) (mc : mat)
    (image : Nifti1Image) (p_bg p_at p_lt p_vat : array) (i j k : nat)
    (a l v : bool) :
  nifti_image cast mc = Ok image ->
  mc !! "P_BG" = Some p_bg -> mc !! "P_AT" = Some p_at ->
  mc !! "P_LT" = Some p_lt -> mc !! "P_VAT" = Some p_vat ->
  in_bounds (array_shape p_bg) i j k -> in_bounds (array_shape p_at) i j k ->
  in_bounds (array_shape p_lt) i j k -> in_bounds (array_shape p_vat) i j k ->
  is_finite (element_at p_bg i j k) = true ->
  is_bit (element_at p_at i j k) a = true ->
  is_bit (element_at p_lt i j k) l = true ->
  is_bit (element_at p_vat i j k) v = true ->
  item (dataobj image) j i k = (Z.b2z a + 2 * Z.b2z l + 3 * Z.b2z v)%Z.
Proof. apply bit_voxel. Qed.

Lemma overlapping_masks_add_codes_witness :
  item (dataobj (composite_of zero_cast (full_mask (S754_zero false))
                   (full_uint8 1) (full_uint8 1) (full_uint8 1))) 20 10 30 =
  (Z.b2z true + 2 * Z.b2z true + 3 * Z.b2z true)%Z.
Proof.
  destruct (mat_of_lookups (full_mask (S754_zero false)) (full_uint8 1)
              (full_uint8 1) (full_uint8 1)) as (Hbg & Hat & Hlt & Hvat).
  apply (overlapping_masks_add_codes zero_cast overlap_mat _ _ _ _ _ 10 20 30
           true true true
           (nifti_image_fits zero_cast overlap_mat _ _ _ _ Hbg Hat Hlt Hvat
              eq_refl eq_refl eq_refl eq_refl)
           Hbg Hat Hlt Hvat);
    first [ reflexivity | cbn; lia ].
Defined.

(** X5: mutually exclusive binary tissue masks give a label code: where each of
    P_AT, P_LT and P_VAT is 0 or 1, at most one of them is 1 and P_BG is
    finite, the composite holds one of the codes of [labels], and it is 0
    exactly when none of the three is 1. *)
Theorem exclusive_masks_give_label_codes (cast : spec_float -> Z) (mc : mat)
    (image : Nifti1Image) (p_bg p_at p_lt p_vat : array) (i j k : nat)
    (a l v : bool) :
  nifti_image cast mc = Ok image ->
  mc !! "P_BG" = Some p_bg -> mc !! "P_AT" = Some p_at ->
  mc !! "P_LT" = Some p_lt -> mc !! "P_VAT" = Some p_vat ->
  in_bounds (array_shape p_bg) i j k -> in_bounds (array_shape p_at) i j k ->
  in_bounds (array_shape p_lt) i j k -> in_bounds (array_shape p_vat) i j k ->
  is_finite (element_at p_bg i j k) = true ->
  is_bit (element_at p_at i j k) a = true ->
  is_bit (element_at p_lt i j k) l = true ->
  is_bit (element_at p_vat i j k) v = true ->
  (Z.b2z a + Z.b2z l + Z.b2z v <= 1)%Z ->
  item (dataobj image) j i k ∈ labels.*2 /\
  (item (dataobj image) j i k = 0%Z <-> a = false /\ l = false /\ v = false).
Proof.
  intros Himg Hbg Hat Hlt Hvat Bbg Bat Blt Bvat Vbg Vat Vlt Vvat Hsum.
  rewrite (bit_voxel cast mc image p_bg p_at p_lt p_vat i j k a l v
             Himg Hbg Hat Hlt Hvat Bbg Bat Blt Bvat Vbg Vat Vlt Vvat).
  destruct a, l, v; cbn [Z.b2z] in *; try lia;
    (split; [ cbn; repeat constructor | ]);
    (split; [ intros H; first [ discriminate H | auto ]
            | intros (Ha & Hl & Hv); first [ discriminate | reflexivity ] ]).
Qed.

Lemma exclusive_masks_give_label_codes_witness :
  item (dataobj (composite_of zero_cast
                   (full_mask (binary_normalize 53 1024 7 (-1) false))
                   (point_mask (260, 320, 316) 0 0 0)
                   (point_float64 (260, 320, 316) 1 0 0)
                   (point_float32 (260, 320, 316) 5 7 9))) 7 5 9 ∈ labels.*2.
Proof.
  destruct (mat_of_lookups (full_mask (binary_normalize 53 1024 7 (-1) false))
              (point_mask (260, 320, 316) 0 0 0)
              (point_float64 (260, 320, 316) 1 0 0)
              (point_float32 (260, 320, 316) 5 7 9)) as (Hbg & Hat & Hlt & Hvat).
  apply (exclusive_masks_give_label_codes zero_cast disjoint_mat_other_bg
           _ _ _ _ _ 5 7 9 false false true
           (nifti_image_fits zero_cast disjoint_mat_other_bg _ _ _ _
              Hbg Hat Hlt Hvat eq_refl eq_refl eq_refl eq_refl)
           Hbg Hat Hlt Hvat);
    first [ reflexivity | cbn; lia ].
Defined.

End CompositorBehaviour.

(** ** The run of the script over the subjects *)

Section ScriptBehaviour.
Import NumPy Py ConvertMatToNifti ConvertExamples.

(** One turn of the loop: a skipped subject, a conversion, or an
    exception. *)
Lemma convert_subject_cases (cast : spec_float -> Z) (fs : filesystem)
    (processed : list string) (saved : list (string * Nifti1Image))
    (subject : string) :
  (String.eqb subject "103828_30" = true /\
   convert_subject cast fs processed saved subject = Ok saved) \/
  (String.eqb subject "103828_30" = false /\
   exists mc image,
     loadmat fs (mat_path subject) = Ok mc /\ nifti_image cast mc = Ok image /\
     convert_subject cast fs processed saved subject =
       Ok (saved ++ [(save_path subject, image)])%list) \/
  (String.eqb subject "103828_30" = false /\
   exists e, convert_subject cast fs processed saved subject = Raise e).
Proof.
  unfold convert_subject, already_processed_test, mat_path. cbn [is_None].
  destruct (String.eqb subject "103828_30");
    [ left; split; reflexivity | right ].
  destruct (loadmat fs _) as [mc | e]; cbn [rbind];
    [ | right; split; [ reflexivity | exists e; reflexivity ] ].
  destruct (nifti_image cast mc) as [image | e] eqn:Himage; cbn [rbind];
    [ left | right; split; [ reflexivity | exists e; reflexivity ] ].
  split; [ reflexivity | ]. exists mc, image.
  split; [ reflexivity | ]. split; [ exact Himage | reflexivity ].
Qed.

Lemma save_path_inj (s1 s2 : string) : save_path s1 = save_path s2 -> s1 = s2.
Proof.
  intros H.
  change (path_save_labels +:+ "/" +:+ "AT_" +:+ s1 +:+ ".nii.gz" =
          path_save_labels +:+ "/" +:+ "AT_" +:+ s2 +:+ ".nii.gz") in H.
  apply (String.app_inj path_save_labels) in H.
  apply (String.app_inj "/") in H.
  apply (String.app_inj "AT_") in H.
  apply (append_inj_suffix ".nii.gz"), H.
Qed.

Lemma convert_subjects_app (cast : spec_float -> Z) (fs : filesystem)
    (processed l1 l2 : list string) (saved : list (string * Nifti1Image)) :
  convert_subjects cast fs processed (l1 ++ l2) saved =
  match convert_subjects cast fs processed l1 saved with
  | (saved', None) => convert_subjects cast fs processed l2 saved'
  | (saved', Some e) => (saved', Some e)
  end.
Proof.
  revert saved. induction l1 as [ | subject l1 IH ]; intros saved;
    cbn [app convert_subjects].
  - reflexivity.
  - destruct (convert_subject cast fs processed saved subject) as [saved' | e];
      [ apply IH | reflexivity ].
Qed.

(** The paths written by the loop are those of the first subjects that are
    not skipped, in the order of the listing; they are all there when the
    loop ends without an exception. *)
Lemma convert_subjects_paths (cast : spec_float -> Z) (fs : filesystem)
    (processed subjects : list string) :
  forall saved : list (string * Nifti1Image),
  exists n,
    map fst (convert_subjects cast fs processed subjects saved).1 =
      (map fst saved ++ map save_path (take n (not_skipped subjects)))%list /\
    ((convert_subjects cast fs processed subjects saved).2 = None ->
     n = length (not_skipped subjects)).
Proof.
  induction subjects as [ | subject rest IH ]; intros saved;
    cbn [convert_subjects not_skipped List.filter].
  - exists 0. cbn. rewrite app_nil_r. auto.
  - fold (not_skipped rest).
    destruct (convert_subject_cases cast fs processed saved subject)
      as [[Hskip ->] | [(Hkeep & mc & image & _ & _ & ->) | (Hkeep & e & ->)]];
      rewrite ?Hskip, ?Hkeep; cbn [negb].
    + apply IH.
    + destruct (IH (saved ++ [(save_path subject, image)])%list) as (n & Hn & Hall).
      exists (S n). rewrite Hn. rewrite map_app. cbn [map fst take].
      rewrite <- app_assoc. split; [ reflexivity | ].
      intros H. cbn [length]. f_equal. apply Hall, H.
    + exists 0. cbn. rewrite app_nil_r. split; [ reflexivity | discriminate ].
Qed.

(** Every entry of the log is the composite of the .mat file of its own
    subject. *)
Lemma convert_subjects_images (cast : spec_float -> Z) (fs : filesystem)
    (processed subjects : list string) (P : string * Nifti1Image -> Prop) :
  (forall subject mc image,
      subject ∈ subjects -> String.eqb subject "103828_30" = false ->
      loadmat fs (mat_path subject) = Ok mc -> nifti_image cast mc = Ok image ->
      P (save_path subject, image)) ->
  forall saved : list (string * Nifti1Image),
    Forall P saved -> Forall P (convert_subjects cast fs processed subjects saved).1.
Proof.
  induction subjects as [ | subject rest IH ]; intros HP saved Hsaved;
    cbn [convert_subjects].
  - exact Hsaved.
  - assert (HPrest : forall s mc image,
               s ∈ rest -> String.eqb s "103828_30" = false ->
               loadmat fs (mat_path s) = Ok mc -> nifti_image cast mc = Ok image ->
               P (save_path s, image)).
    { intros s mc image Hs. apply HP. constructor. exact Hs. }
    destruct (convert_subject_cases cast fs processed saved subject)
      as [[_ ->] | [(Hkeep & mc & image & Hload & Himage & ->) | (_ & e & ->)]].
    + apply IH; assumption.
    + apply IH; [ exact HPrest | ].
      apply Forall_app. split; [ exact Hsaved | ].
      constructor; [ | constructor ].
      apply (HP subject mc image); [ constructor | assumption .. ].
    + exact Hsaved.
Qed.

(** X6: the files the script writes, for every state of the directories: their
    paths are those of a prefix of the listed subjects that are not skipped,
    in listing order, all of them when the run ends without an exception;
    the file of the skipped subject is never written. *)
Theorem written_paths_follow_listing (cast : spec_float -> Z) (fs : filesystem)
    (subjects : list string) :
  os_listdir fs root_mat_files = Ok subjects ->
  exists n,
    map fst (main cast fs).1 = map save_path (take n (not_skipped subjects)) /\
    ((main cast fs).2 = None -> n = length (not_skipped subjects)) /\
    save_path "103828_30" ∉ map fst (main cast fs).1.
Proof.
  intros Hlist.
  assert (Hn : exists n,
             map fst (main cast fs).1 = map save_path (take n (not_skipped subjects)) /\
             ((main cast fs).2 = None -> n = length (not_skipped subjects))).
  { unfold main. destruct (labels_already_processed fs) as [processed | e].
    - rewrite Hlist.
      destruct (convert_subjects_paths cast fs processed subjects [])
        as (n & Hn & Hall).
      exists n. split; [ exact Hn | exact Hall ].
    - exists 0. split; [ reflexivity | discriminate ]. }
  destruct Hn as (n & Hn & Hall). exists n.
  split; [ exact Hn | ]. split; [ exact Hall | ].
  rewrite Hn. intros Hin.
  apply list_elem_of_In, in_map_iff in Hin as (subject & Hpath & Hin).
  apply save_path_inj in Hpath. subst subject.
  apply list_elem_of_In in Hin. apply elem_of_take in Hin as (i & Hin & _).
  apply list_elem_of_lookup_2, list_elem_of_In in Hin.
  unfold not_skipped in Hin. apply filter_In in Hin as [_ Hin].
  discriminate Hin.
Qed.

Lemma written_paths_follow_listing_witness :
  exists n,
    map fst (main zero_cast example_fs).1 =
      map save_path (take n (not_skipped ["103828_30"; "100000_30"])) /\
    ((main zero_cast example_fs).2 = None ->
     n = length (not_skipped ["103828_30"; "100000_30"])) /\
    save_path "103828_30" ∉ map fst (main zero_cast example_fs).1.
Proof.
  apply (written_paths_follow_listing zero_cast example_fs ["103828_30"; "100000_30"]).
  vm_compute. reflexivity.
Defined.

(** X7: every file the script writes holds the composite of the .mat file of
    the subject it is named after, with no affine, the target shape and
    elements in the range of unsigned 16-bit integers. *)
Theorem written_images_are_composites (cast : spec_float -> Z) (fs : filesystem)
    (path : string) (image : Nifti1Image) :
  (path, image) ∈ (main cast fs).1 ->
  exists subject mc,
    path = save_path subject /\
    loadmat fs (mat_path subject) = Ok mc /\
    nifti_image cast mc = Ok image /\
    affine image = None /\
    shape (dataobj image) = image_size /\
    forall i j k, (0 <= item (dataobj image) i j k < 2 ^ 16)%Z.
Proof.
  intros Hin.
  set (P := fun entry : string * Nifti1Image =>
              exists subject mc,
                entry.1 = save_path subject /\
                loadmat fs (mat_path subject) = Ok mc /\
                nifti_image cast mc = Ok entry.2 /\
                affine entry.2 = None /\
                shape (dataobj entry.2) = image_size /\
                forall i j k, (0 <= item (dataobj entry.2) i j k < 2 ^ 16)%Z).
  assert (HP : Forall P (main cast fs).1).
  { unfold main. destruct (labels_already_processed fs) as [processed | e];
      [ | constructor ].
    destruct (os_listdir fs root_mat_files) as [subjects | e]; [ | constructor ].
    apply convert_subjects_images; [ | constructor ].
    intros subject mc img0 _ _ Hload Himage. exists subject, mc. cbn [fst snd].
    split; [ reflexivity | ]. split; [ exact Hload | ]. split; [ exact Himage | ].
    destruct (nifti_image_Ok_inv cast mc img0 Himage)
      as (p_bg & p_at & p_lt & p_vat & _ & _ & _ & _ & _ & _ & _ & _ & ->).
    split; [ reflexivity | ]. split; [ reflexivity | ].
    intros i j k. apply ushort_of_float_range. }
  rewrite Forall_forall in HP. exact (HP (path, image) Hin).
Qed.

Lemma example_run (cast : spec_float -> Z) (processed : list string) :
  convert_subjects cast example_fs processed ["103828_30"; "100000_30"] [] =
  ([(save_path "100000_30", disjoint_image cast)], None).
Proof.
  cbn [convert_subjects].
  destruct (convert_subject_cases cast example_fs processed [] "103828_30")
    as [[_ ->] | [(Hkeep & _) | (Hkeep & _)]]; try discriminate Hkeep.
  destruct (convert_subject_cases cast example_fs processed [] "100000_30")
    as [[Hskip _] | [(_ & mc & image & Hload & Himage & ->) | (_ & e & He)]];
    try discriminate Hskip.
  - assert (Hl : loadmat example_fs (mat_path "100000_30") = Ok disjoint_mat)
      by (vm_compute; reflexivity).
    rewrite Hl in Hload. injection Hload as <-.
    rewrite (nifti_image_fits cast disjoint_mat (full_mask (S754_zero false))
               (point_mask (260, 320, 316) 0 0 0)
               (point_float64 (260, 320, 316) 1 0 0)
               (point_float32 (260, 320, 316) 5 7 9)) in Himage
      by (vm_compute; reflexivity).
    injection Himage as <-. reflexivity.
  - exfalso. revert He. unfold convert_subject, already_processed_test.
    cbn [is_None]. change (String.eqb "100000_30" "103828_30") with false.
    assert (Hl : loadmat example_fs
                   (os_path_join (os_path_join root_mat_files "100000_30")
                      mat_file_name) = Ok disjoint_mat)
      by (vm_compute; reflexivity).
    rewrite Hl. cbn [rbind].
    rewrite (nifti_image_fits cast disjoint_mat (full_mask (S754_zero false))
               (point_mask (260, 320, 316) 0 0 0)
               (point_float64 (260, 320, 316) 1 0 0)
               (point_float32 (260, 320, 316) 5 7 9)) by (vm_compute; reflexivity).
    discriminate.
Qed.

Lemma written_images_are_composites_witness :
  exists subject mc,
    "/mnt/share/rahauei1/AT_Thomas/labels/AT_100000_30.nii.gz" = save_path subject /\
    loadmat example_fs (mat_path subject) = Ok mc /\
    nifti_image zero_cast mc = Ok (disjoint_image zero_cast) /\
    affine (disjoint_image zero_cast) = None /\
    shape (dataobj (disjoint_image zero_cast)) = image_size /\
    forall i j k,
      (0 <= item (dataobj (disjoint_image zero_cast)) i j k < 2 ^ 16)%Z.
Proof.
  apply (written_images_are_composites zero_cast example_fs).
  rewrite (proj2 (main_example zero_cast)). cbn [fst]. constructor.
Defined.

(** X8: the first subject whose conversion raises ends the run with that
    exception: the files of the subjects before it stay written and no
    later subject is converted. *)
Theorem failing_subject_ends_run (cast : spec_float -> Z) (fs : filesystem)
    (processed before after : list string) (subject : string)
    (saved saved' : list (string * Nifti1Image)) (e : exn) :
  convert_subjects cast fs processed before saved = (saved', None) ->
  convert_subject cast fs processed saved' subject = Raise e ->
  convert_subjects cast fs processed (before ++ subject :: after) saved =
  (saved', Some e).
Proof.
  intros Hbefore Hfail. rewrite convert_subjects_app, Hbefore.
  cbn [convert_subjects]. rewrite Hfail. reflexivity.
Qed.

Lemma failing_subject_ends_run_witness :
  convert_subjects zero_cast example_fs []
    (["103828_30"; "100000_30"] ++ "no_mat" :: ["100000_30"]) [] =
  ([(save_path "100000_30", disjoint_image zero_cast)],
   Some (FileNotFoundError "/mnt/data/rawdata/NAKO/AT_NAKO/no_mat/rework.mat")).
Proof.
  apply (failing_subject_ends_run zero_cast example_fs [] ["103828_30"; "100000_30"]
           ["100000_30"] "no_mat" []).
  - apply example_run.
  - vm_compute. reflexivity.
Defined.

(** X9: the directories are read before any subject: a missing output
    directory, then a missing root directory, raises [FileNotFoundError]
    with nothing written; a root directory that lists no subject, or only
    the skipped one, gives no file and no exception. *)
Theorem main_reads_directories_first (cast : spec_float -> Z) (fs : filesystem) :
  (dirs fs !! path_save_labels = None ->
   main cast fs = ([], Some (FileNotFoundError path_save_labels))) /\
  (is_Some (dirs fs !! path_save_labels) -> dirs fs !! root_mat_files = None ->
   main cast fs = ([], Some (FileNotFoundError root_mat_files))) /\
  (forall subjects,
      is_Some (dirs fs !! path_save_labels) ->
      dirs fs !! root_mat_files = Some subjects ->
      not_skipped subjects = [] ->
      main cast fs = ([], None)).
Proof.
  unfold main, labels_already_processed, os_listdir.
  split; [ intros ->; reflexivity | ].
  split.
  - intros [names ->] ->. reflexivity.
  - intros subjects [names ->] -> Hskip. cbn [rbind].
    generalize (map (fun i => join "_" (slice 1 3 (split "_" i))) names).
    intros processed. induction subjects as [ | subject rest IH ];
      cbn [convert_subjects]; [ reflexivity | ].
    cbn [not_skipped List.filter] in Hskip. unfold convert_subject.
    destruct (String.eqb subject "103828_30"); cbn [negb] in Hskip;
      [ apply IH, Hskip | discriminate Hskip ].
Qed.

End ScriptBehaviour.

(** ** The keys read off the output directory *)

Section ProcessedKeys.
Import Py ConvertMatToNifti.

Lemma string_append_assoc (a b c : string) :
  (a +:+ b) +:+ c = a +:+ (b +:+ c).
Proof.
  induction a as [ | x a IH ]; [ reflexivity | ].
  change (String x ((a +:+ b) +:+ c) = String x (a +:+ (b +:+ c))).
  f_equal. exact IH.
Qed.

Lemma has_char_app (c : ascii) (a b : string) :
  has_char c (a +:+ b) = has_char c a || has_char c b.
Proof.
  induction a as [ | x a IH ]; [ reflexivity | ].
  change (Ascii.eqb x c || has_char c (a +:+ b) =
          Ascii.eqb x c || has_char c a || has_char c b).
  rewrite IH. apply orb_assoc.
Qed.

(** A string without the separator is one token. *)
Lemma split_from_no_sep (sep : ascii) (s cur : string) :
  has_char sep s = false -> split_from sep cur s = [cur +:+ s].
Proof.
  revert cur. induction s as [ | x s IH ]; intros cur H; cbn [split_from].
  - f_equal. clear H. induction cur as [ | y cur IHc ]; [ reflexivity | ].
    change (String y cur = String y (cur +:+ "")). f_equal. exact IHc.
  - cbn [has_char] in H. apply orb_false_iff in H as [Hx Hs]. rewrite Hx.
    rewrite (IH _ Hs). f_equal. apply string_append_assoc.
Qed.

(** The first separator ends the first token. *)
Lemma split_from_sep (sep : ascii) (a rest cur : string) :
  has_char sep a = false ->
  split_from sep cur (a +:+ String sep rest) =
  (cur +:+ a) :: split_from sep "" rest.
Proof.
  revert cur. induction a as [ | x a IH ]; intros cur H.
  - change (split_from sep cur (String sep rest) =
            (cur +:+ "") :: split_from sep "" rest).
    cbn [split_from]. rewrite Ascii.eqb_refl. f_equal.
    clear. induction cur as [ | y cur IHc ]; [ reflexivity | ].
    change (String y cur = String y (cur +:+ "")). f_equal. exact IHc.
  - cbn [has_char] in H. apply orb_false_iff in H as [Hx Ha].
    change (split_from sep cur (String x (a +:+ String sep rest)) =
            (cur +:+ String x a) :: split_from sep "" rest).
    cbn [split_from]. rewrite Hx. rewrite (IH _ Ha). f_equal.
    apply string_append_assoc.
Qed.

Lemma has_char_split (c : ascii) (s : string) :
  has_char c s = true ->
  exists a rest, s = a +:+ String c rest /\ has_char c a = false.
Proof.
  induction s as [ | x s IH ]; cbn [has_char]; [ discriminate | ].
  destruct (Ascii.eqb x c) eqn:Hx; cbn [orb].
  - intros _. apply Ascii.eqb_eq in Hx. subst x. exists "", s. auto.
  - intros Hs. destruct (IH Hs) as (a & rest & -> & Ha).
    exists (String x a), rest. cbn [has_char]. rewrite Hx, Ha. auto.
Qed.

(** X10: the key that line 16 derives from the file the script itself writes for
    a subject is never the subject key: it keeps the [.nii.gz] ending when
    the subject key has at most one underscore, and drops everything from
    the second underscore on otherwise.  For a subject key [a_b] it is
    [a_b.nii.gz]. *)
Theorem processed_key_of_written_file :
  (forall subject : string, processed_key (file_name subject) <> subject) /\
  (forall a b : string,
      has_char "_" a = false -> has_char "_" b = false ->
      processed_key (file_name (a +:+ "_" +:+ b)) = a +:+ "_" +:+ b +:+ ".nii.gz").
Proof.
  assert (Hhead : forall x : string,
             split "_" ("AT_" +:+ x) = "AT" :: split_from "_" "" x)
    by reflexivity.
  assert (Htwo : forall a b : string,
             has_char "_" a = false -> has_char "_" b = false ->
             processed_key (file_name (a +:+ "_" +:+ b)) =
             a +:+ "_" +:+ b +:+ ".nii.gz").
  { intros a b Ha Hb. unfold processed_key, file_name.
    rewrite Hhead. rewrite string_append_assoc.
    change ("_" +:+ b) with (String "_" b).
    change (String "_" b +:+ ".nii.gz") with (String "_" (b +:+ ".nii.gz")).
    rewrite (split_from_sep "_" a _ "" Ha).
    rewrite split_from_no_sep by (rewrite has_char_app, Hb; reflexivity).
    reflexivity. }
  split; [ | exact Htwo ].
  intros subject Heq. apply (f_equal String.length) in Heq.
  destruct (has_char "_" subject) eqn:Hsub.
  - destruct (has_char_split _ _ Hsub) as (a & r & -> & Ha).
    destruct (has_char "_" r) eqn:Hr.
    + destruct (has_char_split _ _ Hr) as (b & r' & -> & Hb).
      revert Heq. unfold processed_key, file_name.
      rewrite Hhead. rewrite !string_append_assoc.
      change (String "_" (b +:+ String "_" r') +:+ ".nii.gz")
        with (String "_" ((b +:+ String "_" r') +:+ ".nii.gz")).
      rewrite (split_from_sep "_" a _ "" Ha).
      rewrite string_append_assoc.
      change (String "_" r' +:+ ".nii.gz") with (String "_" (r' +:+ ".nii.gz")).
      rewrite (split_from_sep "_" b _ "" Hb).
      change (join "_" (slice 1 3 ("AT" :: ("" +:+ a) :: ("" +:+ b) ::
                                   split_from "_" "" (r' +:+ ".nii.gz"))))
        with (a +:+ "_" +:+ b).
      repeat first [ rewrite string_append_length | progress cbn [String.length] ].
      lia.
    + revert Heq.
      change (a +:+ String "_" r) with (a +:+ "_" +:+ r).
      rewrite (Htwo a r Ha Hr).
      repeat first [ rewrite string_append_length | progress cbn [String.length] ].
      lia.
  - revert Heq. unfold processed_key, file_name. rewrite Hhead.
    rewrite split_from_no_sep by (rewrite has_char_app, Hsub; reflexivity).
    change (join "_" (slice 1 3 ["AT"; "" +:+ subject +:+ ".nii.gz"]))
      with (subject +:+ ".nii.gz").
    repeat first [ rewrite string_append_length | progress cbn [String.length] ].
    lia.
Qed.

End ProcessedKeys.

(** ** More on [block]: the lists it works on *)

Section BlockBehaviour.
Import BasicBlock BasicBlockExamples.

(** With enough fuel the padding loop makes a shorter [order] exactly as
    long as [order_param]. *)
Lemma pad_order_full (fuel : nat) (st : store) (order order_param : loc) :
  order <> order_param -> order < length st ->
  length (read st order) <= length (read st order_param) ->
  length (read st order_param) - length (read st order) <= fuel ->
  read (pad_order fuel st order order_param) order =
    (read st order ++
     replicate (length (read st order_param) - length (read st order)) VNone)%list /\
  read (pad_order fuel st order order_param) order_param = read st order_param /\
  length (pad_order fuel st order order_param) = length st /\
  forall l, l <> order -> read (pad_order fuel st order order_param) l = read st l.
Proof.
  intros Hne. revert st.
  induction fuel as [ | fuel IH ]; intros st Hlt Hle Hfuel; cbn [pad_order].
  - replace (length (read st order_param) - length (read st order)) with 0 by lia.
    cbn. rewrite app_nil_r. auto.
  - destruct (Nat.ltb_spec (length (read st order)) (length (read st order_param)))
      as [Hlen | Hlen].
    + pose proof (read_append_same st order VNone Hlt) as Rs.
      pose proof (read_append_other st order order_param VNone Hne) as Ro.
      destruct (IH (append st order VNone)) as (Ho & Hp & Hl & Hf).
      * rewrite append_store_length. exact Hlt.
      * rewrite Rs, Ro, length_app. cbn. lia.
      * rewrite Rs, Ro, length_app. cbn. lia.
      * rewrite Ho, Hp, Hl, Rs, Ro, append_store_length, length_app.
        cbn [length].
        replace (length (read st order_param) - length (read st order))
          with (S (length (read st order_param) - (length (read st order) + 1)))
          by lia.
        cbn [replicate]. rewrite <- app_assoc. cbn [app].
        split; [ reflexivity | ]. split; [ reflexivity | ].
        split; [ reflexivity | ].
        intros l Hl'. rewrite Hf by exact Hl'.
        apply read_append_other. congruence.
    + replace (length (read st order_param) - length (read st order)) with 0 by lia.
      cbn. rewrite app_nil_r. auto.
Qed.

Lemma kwargs_loop_frame (kwargs : list (string * atom)) (order : loc) :
  forall (st : store) (name : atom) (dropout_rate : option atom),
    length (kwargs_loop kwargs order st name dropout_rate).1.1 = length st /\
    forall l, l <> order ->
      read (kwargs_loop kwargs order st name dropout_rate).1.1 l = read st l.
Proof.
  induction kwargs as [ | [key v] rest IH ]; intros st name dropout_rate;
    cbn [kwargs_loop].
  - auto.
  - destruct (String.eqb key "dropout").
    + destruct (IH (append st order (VStr "d"))
                  (if String.eqb key "name" then v else name) (Some v)) as [Hl Hf].
      rewrite Hl, append_store_length. split; [ reflexivity | ].
      intros l Hne. rewrite Hf by exact Hne. apply read_append_other. congruence.
    + apply IH.
Qed.

(** X11: the converse of the assertion failure: when [order] and [order_param]
    are different lists (or defaults) and [order] is not the longer one,
    [block] returns its [func]; it has padded [order] with [None] to the
    length of [order_param], appended the ['d'] items of the keywords, and
    left [order_param] as it was. *)
Theorem block_pads_shorter_order (f k s : atom)
    (order order_param : option loc) (order_priority : bool)
    (kwargs : list (string * atom)) (st : store) (items params : list value) :
  effective order default_order st = Some items ->
  effective order_param default_order_param st = Some params ->
  (forall l, order = Some l -> order_param <> Some l) ->
  length items <= length params ->
  exists st' cl m,
    block f k s order order_param order_priority kwargs st = (st', Ok cl) /\
    read st' (c_order_param cl) = params /\
    read st' (c_order cl) =
      ((items ++ replicate (length params - length items) VNone) ++
       replicate m (VStr "d"))%list /\
    (m = length (dropout_keys kwargs)).
Proof.
  intros Hitems Hparams Halias Hlen. unfold block.
  destruct (or_default order_param default_order_param st) as [st1 lp] eqn:E1.
  destruct (or_default order default_order st1) as [st2 lo] eqn:E2.
  destruct (or_default_spec _ _ _ _ _ _ _ E1 E2)
    as (items' & params' & Hitems' & Hparams' & Ritems & Rparams & Hne & Hlt).
  { intros l ->. cbn [effective] in Hitems. split.
    - apply lookup_lt_is_Some_1. eauto.
    - apply Halias. reflexivity. }
  { intros l ->. cbn [effective] in Hparams.
    apply lookup_lt_is_Some_1. eauto. }
  rewrite Hitems in Hitems'. injection Hitems' as <-.
  rewrite Hparams in Hparams'. injection Hparams' as <-.
  destruct (pad_order_full (length (read st2 lp)) st2 lo lp Hne Hlt)
    as (Po & Pp & Pl & _); [ rewrite Ritems, Rparams; exact Hlen | lia | ].
  set (st3 := pad_order (length (read st2 lp)) st2 lo lp) in *.
  rewrite Ritems, Rparams in Po. rewrite Rparams in Pp.
  rewrite Po, Pp, length_app, length_replicate.
  destruct (Nat.eqb_spec (length items + (length params - length items))
              (length params)) as [_ | Hbad]; [ | lia ].
  cbn [negb].
  assert (Hk : forall (kw : list (string * atom)) (st0 : store) (name : atom)
                      (dr : option atom),
             lo < length st0 ->
             read (kwargs_loop kw lo st0 name dr).1.1 lo =
             (read st0 lo ++ replicate (length (dropout_keys kw)) (VStr "d"))%list).
  { induction kw as [ | [key v] rest IH ]; intros st0 name dr Hlt0;
      cbn [kwargs_loop dropout_keys List.filter fst].
    - cbn. rewrite app_nil_r. reflexivity.
    - fold (dropout_keys rest). destruct (String.eqb key "dropout").
      + rewrite IH by (rewrite append_store_length; exact Hlt0).
        rewrite read_append_same by exact Hlt0.
        rewrite <- app_assoc. reflexivity.
      + apply IH, Hlt0. }
  specialize (Hk kwargs st3 ANone None).
  destruct (kwargs_loop_frame kwargs lo st3 ANone None) as [_ Kf].
  specialize (Kf lp).
  destruct (kwargs_loop kwargs lo st3 ANone None) as [[st4 name] dropout_rate].
  cbn [fst] in Hk, Kf.
  exists st4, (mk_closure f k s lo lp order_priority dropout_rate),
    (length (dropout_keys kwargs)).
  cbn [c_order c_order_param].
  split; [ reflexivity | ].
  split; [ rewrite Kf by congruence; exact Pp | ].
  split; [ | reflexivity ].
  rewrite Hk by (rewrite Pl; exact Hlt). rewrite Po. reflexivity.
Qed.

Lemma block_pads_shorter_order_witness :
  exists st' cl m,
    block (AInt 64) (AInt 3) (AInt 2) (Some 0) (Some 1) false short_order_kwargs
      short_order_store = (st', Ok cl) /\
    read st' (c_order_param cl) = replicate 3 VNone /\
    read st' (c_order cl) =
      (([VStr "c"] ++ replicate (length (replicate 3 VNone) - length [VStr "c"]) VNone) ++
       replicate m (VStr "d"))%list /\
    m = length (dropout_keys short_order_kwargs).
Proof.
  apply (block_pads_shorter_order (AInt 64) (AInt 3) (AInt 2) (Some 0) (Some 1)
           false short_order_kwargs short_order_store [VStr "c"]
           (replicate 3 VNone)).
  - reflexivity.
  - reflexivity.
  - intros l [= <-]. discriminate.
  - cbn. lia.
Defined.

Lemma pad_order_frame (fuel : nat) (order order_param : loc) :
  forall st : store,
    length (pad_order fuel st order order_param) = length st /\
    forall l, l <> order -> read (pad_order fuel st order order_param) l = read st l.
Proof.
  induction fuel as [ | fuel IH ]; intros st; cbn [pad_order]; [ auto | ].
  destruct (length (read st order) <? length (read st order_param))%nat; [ | auto ].
  destruct (IH (append st order VNone)) as [Hl Hf].
  rewrite Hl, append_store_length. split; [ reflexivity | ].
  intros l Hne. rewrite Hf by exact Hne. apply read_append_other. congruence.
Qed.

Lemma or_default_frame (arg : option loc) (items : list value) (st : store) :
  length st <= length (or_default arg items st).1 /\
  (forall l, l < length st -> read (or_default arg items st).1 l = read st l) /\
  (arg = None -> (or_default arg items st).2 = length st /\
                 length (or_default arg items st).1 = S (length st)) /\
  (forall l, arg = Some l ->
     (or_default arg items st).2 = l /\ (or_default arg items st).1 = st).
Proof.
  destruct arg as [l0 | ]; cbn [or_default fst snd].
  - split; [ lia | ]. split; [ reflexivity | ].
    split; [ discriminate | ]. intros l [= <-]. auto.
  - split; [ rewrite alloc_length; lia | ].
    split; [ intros l; apply read_alloc_old | ].
    split; [ intros _; split; [ reflexivity | apply alloc_length ] | discriminate ].
Qed.

(** X12: [block] changes no list but [order]: [order_param] (when it is another
    list) and every other list of the store are left as they were.  A call
    that raises has not changed [order] either. *)
Theorem block_changes_only_order (f k s : atom)
    (order order_param : option loc) (order_priority : bool)
    (kwargs : list (string * atom)) (st : store) :
  (forall l, order = Some l -> l < length st) ->
  (forall l, l < length st -> order <> Some l ->
     read (block f k s order order_param order_priority kwargs st).1 l =
     read st l) /\
  (forall e,
     (block f k s order order_param order_priority kwargs st).2 = Raise e ->
     forall l, l < length st ->
       read (block f k s order order_param order_priority kwargs st).1 l =
       read st l).
Proof.
  intros Hvalid. unfold block.
  destruct (or_default_frame order_param default_order_param st)
    as (Hlen1 & Hold1 & _ & _).
  destruct (or_default order_param default_order_param st) as [st1 lp].
  destruct (or_default_frame order default_order st1)
    as (Hlen2 & Hold2 & Hnone & Hsome).
  destruct (or_default order default_order st1) as [st2 lo]. cbn [fst snd] in *.
  assert (Hlo : lo < length st2).
  { destruct order as [l | ].
    - destruct (Hsome l eq_refl) as [-> ->]. specialize (Hvalid l eq_refl). lia.
    - destruct (Hnone eq_refl) as [-> ->]. lia. }
  assert (Hfresh : forall l, l < length st -> order <> Some l -> l <> lo).
  { intros l Hl Hne ->. destruct order as [l' | ].
    - destruct (Hsome l' eq_refl) as [<- _]. congruence.
    - destruct (Hnone eq_refl) as [E _]. lia. }
  assert (Hold : forall l, l < length st -> read st2 l = read st l).
  { intros l Hl. rewrite Hold2 by lia. apply Hold1, Hl. }
  destruct (pad_order_frame (length (read st2 lp)) lo lp st2) as [Pl Pf].
  set (st3 := pad_order (length (read st2 lp)) st2 lo lp) in *.
  destruct (kwargs_loop_frame kwargs lo st3 ANone None) as [_ Kf].
  split.
  - intros l Hl Hne. specialize (Hfresh l Hl Hne).
    destruct (negb _); cbn [fst].
    + rewrite Pf by exact Hfresh. apply Hold, Hl.
    + destruct (kwargs_loop kwargs lo st3 ANone None) as [[st4 name] dr].
      cbn [fst] in *. rewrite Kf by exact Hfresh.
      rewrite Pf by exact Hfresh. apply Hold, Hl.
  - intros e Hraise l Hl.
    assert (Hsame : st3 = st2 \/ length (read st3 lo) = length (read st3 lp)).
    { destruct (decide (lo = lp)) as [-> | Hne].
      - left. apply pad_order_noop. lia.
      - destruct (le_lt_dec (length (read st2 lo)) (length (read st2 lp)))
          as [Hle | Hgt].
        + right.
          destruct (pad_order_full (length (read st2 lp)) st2 lo lp Hne Hlo Hle)
            as (Po & Pp & _); [ lia | ].
          fold st3 in Po, Pp. rewrite Po, Pp, length_app, length_replicate. lia.
        + left. apply pad_order_noop. lia. }
    destruct Hsame as [Hsame | Hsame].
    + destruct (negb _); cbn [fst snd] in *.
      * rewrite Hsame. apply Hold, Hl.
      * destruct (kwargs_loop kwargs lo st3 ANone None) as [[st4 name] dr].
        discriminate Hraise.
    + rewrite Hsame, Nat.eqb_refl in Hraise. cbn [negb] in Hraise.
      destruct (kwargs_loop kwargs lo st3 ANone None) as [[st4 name] dr].
      discriminate Hraise.
Qed.

Lemma block_changes_only_order_witness :
  (forall l, l < length long_order_store -> Some 0 <> Some l ->
     read (block (AInt 64) (AInt 3) (AInt 2) (Some 0) None false
             [("dropout", half)] long_order_store).1 l =
     read long_order_store l) /\
  (forall e,
     (block (AInt 64) (AInt 3) (AInt 2) (Some 0) None false
        [("dropout", half)] long_order_store).2 = Raise e ->
     forall l, l < length long_order_store ->
       read (block (AInt 64) (AInt 3) (AInt 2) (Some 0) None false
               [("dropout", half)] long_order_store).1 l =
       read long_order_store l).
Proof.
  apply (block_changes_only_order (AInt 64) (AInt 3) (AInt 2) (Some 0) None
           false [("dropout", half)] long_order_store).
  intros l [= <-]. cbn. lia.
Defined.

Lemma kwargs_loop_dropout_keys (kwargs : list (string * atom)) (order : loc) :
  forall (st : store) (name name' : atom) (dropout_rate : option atom),
    (kwargs_loop kwargs order st name dropout_rate).1.1 =
      (kwargs_loop (dropout_keys kwargs) order st name' dropout_rate).1.1 /\
    (kwargs_loop kwargs order st name dropout_rate).2 =
      (kwargs_loop (dropout_keys kwargs) order st name' dropout_rate).2.
Proof.
  induction kwargs as [ | [key v] rest IH ]; intros st name name' dropout_rate;
    cbn [kwargs_loop dropout_keys List.filter fst].
  - auto.
  - fold (dropout_keys rest).
    destruct (String.eqb key "dropout") eqn:Hkey.
    + cbn [kwargs_loop]. rewrite Hkey. apply IH.
    + apply IH.
Qed.

(** X13: only the [dropout] keyword has an effect: [block] returns the same
    store and the same closure when every other keyword, [name] included,
    is left out. *)
Theorem block_ignores_other_keywords (f k s : atom)
    (order order_param : option loc) (order_priority : bool)
    (kwargs : list (string * atom)) (st : store) :
  block f k s order order_param order_priority kwargs st =
  block f k s order order_param order_priority (dropout_keys kwargs) st.
Proof.
  unfold block.
  destruct (or_default order_param default_order_param st) as [st1 lp].
  destruct (or_default order default_order st1) as [st2 lo].
  destruct (negb _); [ reflexivity | ].
  destruct (kwargs_loop_dropout_keys kwargs lo
              (pad_order (length (read st2 lp)) st2 lo lp) ANone ANone None)
    as [Hst Hdr].
  destruct (kwargs_loop kwargs lo _ ANone None) as [[st4 name] dr].
  destruct (kwargs_loop (dropout_keys kwargs) lo _ ANone None)
    as [[st4' name'] dr'].
  cbn [fst snd] in Hst, Hdr. subst. reflexivity.
Qed.

End BlockBehaviour.

(** ** More on [func]: the layers it applies *)

Section FuncBehaviour.
Import BasicBlock BasicBlockExamples.

Lemma run_items_app (cl : closure) (ndim : nat) (l1 l2 : list (value * value)) :
  forall applied : list layer,
    run_items cl ndim (l1 ++ l2) applied =
    match run_items cl ndim l1 applied with
    | (applied', None) => run_items cl ndim l2 applied'
    | (applied', Some e) => (applied', Some e)
    end.
Proof.
  induction l1 as [ | [item item_param] l1 IH ]; intros applied;
    cbn [app run_items]; [ reflexivity | ].
  destruct (apply_item cl ndim item item_param) as [[l | ] | e];
    [ apply IH | apply IH | reflexivity ].
Qed.

Lemma run_items_length (cl : closure) (ndim : nat) (items : list (value * value)) :
  forall applied : list layer,
    length (run_items cl ndim items applied).1 <= length applied + length items.
Proof.
  induction items as [ | [item item_param] rest IH ]; intros applied;
    cbn [run_items length].
  - cbn. lia.
  - destruct (apply_item cl ndim item item_param) as [[l | ] | e].
    + specialize (IH (applied ++ [l])%list). rewrite length_app in IH.
      cbn [length] in IH. lia.
    + specialize (IH applied). lia.
    + cbn [fst]. lia.
Qed.

(** X14: [func] applies at most one layer for each pair of an [order] item and an
    [order_param] item: no more layers than the shorter of the two lists has
    items. *)
Theorem func_layer_count (cl : closure) (st : store) (ndim : nat) :
  length (func cl st ndim).1 <=
  length (read st (c_order cl)) `min` length (read st (c_order_param cl)).
Proof.
  unfold func.
  pose proof (run_items_length cl ndim
                (zip (read st (c_order cl)) (read st (c_order_param cl))) [])
    as H.
  rewrite length_zip in H. cbn [length] in H. lia.
Qed.

Lemma apply_item_t (cl : closure) (ndim : nat) (item_param : value) :
  apply_item cl ndim (VStr "t") item_param = Raise TypeError.
Proof. reflexivity. Qed.

(** X15: A ['t'] item never gives a layer: [tanh] is called without its
    argument, so a [func] that has a ['t'] item among its zipped items ends
    with an exception, at that item or before. *)
Theorem tanh_item_raises (cl : closure) (st : store) (ndim : nat)
    (item_param : value) :
  (VStr "t", item_param) ∈ zip (read st (c_order cl)) (read st (c_order_param cl)) ->
  exists e, (func cl st ndim).2 = Some e.
Proof.
  unfold func.
  generalize (zip (read st (c_order cl)) (read st (c_order_param cl))).
  intros items Hin. apply list_elem_of_split in Hin as (l1 & l2 & ->).
  rewrite run_items_app.
  destruct (run_items cl ndim l1 []) as [applied [e | ]]; [ eauto | ].
  cbn [run_items]. rewrite apply_item_t. eauto.
Qed.

Lemma tanh_item_raises_witness :
  exists e,
    (func (mk_closure (AInt 64) (AInt 3) (AInt 2) 0 1 false None)
       [[VStr "r"; VStr "t"; VStr "b"]; replicate 3 VNone] 4).2 = Some e.
Proof.
  apply (tanh_item_raises _ [[VStr "r"; VStr "t"; VStr "b"]; replicate 3 VNone]
           4 VNone).
  cbn. repeat constructor.
Defined.

(** X16: every layer [func] applies is one for the number of dimensions of its
    input: 3-D layers for 5 dimensions only, 2-D convolutions for 4 only
    (a convolution item is skipped otherwise), and the 2-D pooling and
    upsampling layers for every other number of dimensions than 5. *)
Theorem layers_follow_ndim (cl : closure) (st : store) (ndim : nat) :
  Forall (fun l => layer_for_ndim ndim l = true) (func cl st ndim).1.
Proof.
  unfold func.
  generalize (zip (read st (c_order cl)) (read st (c_order_param cl))).
  intros items.
  assert (H : forall applied,
             Forall (fun l => layer_for_ndim ndim l = true) applied ->
             Forall (fun l => layer_for_ndim ndim l = true)
               (run_items cl ndim items applied).1).
  { induction items as [ | [item item_param] rest IH ]; intros applied Happlied;
      cbn [run_items]; [ exact Happlied | ].
    destruct (apply_item cl ndim item item_param) as [[l | ] | e] eqn:E;
      [ | apply IH, Happlied | exact Happlied ].
    apply IH. apply Forall_app. split; [ exact Happlied | ].
    constructor; [ | constructor ].
    revert E. unfold apply_item, conv_item, pool_item_args, rbind.
    repeat case_match; intros; simplify_eq; cbn [layer_for_ndim];
      repeat match goal with
             | H : (_ =? _)%nat = _ |- _ => rewrite H
             end; reflexivity. }
  apply H. constructor.
Qed.

Lemma run_items_ext (cl cl' : closure) (ndim : nat) (items : list (value * value)) :
  Forall (fun p => apply_item cl ndim p.1 p.2 = apply_item cl' ndim p.1 p.2) items ->
  forall applied : list layer,
    run_items cl ndim items applied = run_items cl' ndim items applied.
Proof.
  induction 1 as [ | [item item_param] rest Hitem _ IH ]; intros applied;
    cbn [run_items]; [ reflexivity | ].
  cbn [fst snd] in Hitem. rewrite Hitem.
  destruct (apply_item cl' ndim item item_param) as [[l | ] | e];
    [ apply IH | apply IH | reflexivity ].
Qed.

(** X17: [order_priority] matters only where an item has parameters: when every
    item of [order_param] is [None], [func] applies the same layers with
    [order_priority] true and false. *)
Theorem order_priority_needs_item_params (f k s : atom) (order order_param : loc)
    (dropout_rate : option atom) (st : store) (ndim : nat) :
  Forall (fun item_param => is_not_None item_param = false) (read st order_param) ->
  func (mk_closure f k s order order_param true dropout_rate) st ndim =
  func (mk_closure f k s order order_param false dropout_rate) st ndim.
Proof.
  intros Hnone. unfold func. cbn [c_order c_order_param].
  apply run_items_ext.
  assert (H : Forall (fun p : value * value => is_not_None p.2 = false)
                (zip (read st order) (read st order_param))).
  { revert Hnone. generalize (read st order_param) (read st order).
    intros params items Hnone. revert items.
    induction Hnone as [ | ip params Hip _ IH ]; intros [ | item items ]; cbn;
      constructor; [ exact Hip | apply IH ]. }
  eapply Forall_impl; [ exact H | ].
  intros [item item_param] Hip. cbn [fst snd] in *.
  unfold apply_item, conv_item. rewrite Hip. reflexivity.
Qed.

Lemma order_priority_needs_item_params_witness :
  func (mk_closure (AInt 64) (AInt 3) (AInt 2) 0 1 true None)
    [default_order; default_order_param] 4 =
  func (mk_closure (AInt 64) (AInt 3) (AInt 2) 0 1 false None)
    [default_order; default_order_param] 4.
Proof.
  apply (order_priority_needs_item_params (AInt 64) (AInt 3) (AInt 2) 0 1 None
           [default_order; default_order_param] 4).
  cbn. repeat constructor.
Defined.

(** X18: with [order_priority] true and parameters given for every convolution
    item, the arguments [f], [k] and [s] of [block] are not used: the
    filters, kernels and strides are those of the parameters. *)
Theorem order_priority_overrides_f_k_s (f k s f' k' s' : atom)
    (order order_param : loc) (dropout_rate : option atom) (st : store)
    (ndim : nat) :
  Forall (fun p : value * value =>
            is_conv_item p.1 = true -> is_not_None p.2 = true)
    (zip (read st order) (read st order_param)) ->
  func (mk_closure f k s order order_param true dropout_rate) st ndim =
  func (mk_closure f' k' s' order order_param true dropout_rate) st ndim.
Proof.
  intros Hparams. unfold func. cbn [c_order c_order_param].
  apply run_items_ext. eapply Forall_impl; [ exact Hparams | ].
  intros [item item_param] Hip. cbn [fst snd] in *.
  unfold apply_item. fold (is_conv_item item).
  destruct (is_conv_item item); [ | reflexivity ].
  unfold conv_item. rewrite (Hip eq_refl). reflexivity.
Qed.

Lemma order_priority_overrides_f_k_s_witness :
  func (mk_closure (AInt 64) (AInt 3) (AInt 2) 0 1 true None) conv_params_store 4 =
  func (mk_closure (AInt 8) (AInt 7) (AInt 4) 0 1 true None) conv_params_store 4.
Proof.
  apply (order_priority_overrides_f_k_s (AInt 64) (AInt 3) (AInt 2)
           (AInt 8) (AInt 7) (AInt 4) 0 1 None conv_params_store 4).
  cbn. repeat constructor; cbn; intros H; first [ reflexivity | discriminate H ].
Defined.

Lemma conv_params_layers :
  func (mk_closure (AInt 64) (AInt 3) (AInt 2) 0 1 true None) conv_params_store 4 =
  ([Conv2D (mk_conv_args (AInt 16) (AInt 5) (AInt 1) (AStr "valid")
              (AStr "he_normal") (AInt 1) ANone); ReLU], None).
Proof. vm_compute. reflexivity. Qed.

Lemma run_items_None (cl : closure) (ndim : nat) (items : list (value * value)) :
  Forall (fun p : value * value => p.1 = VNone) items ->
  forall applied : list layer, run_items cl ndim items applied = (applied, None).
Proof.
  induction 1 as [ | [item item_param] rest Hitem _ IH ]; intros applied;
    cbn [run_items]; [ reflexivity | ].
  cbn [fst] in Hitem. subst item.
  change (apply_item cl ndim VNone item_param) with (Ok (None (A := layer))).
  apply IH.
Qed.

(** The [None] items that pad [order] apply no layer. *)
Lemma run_items_zip_pad (cl : closure) (ndim : nat) (nones : list value) :
  Forall (fun v => v = VNone) nones ->
  forall (items params : list value) (applied : list layer),
    run_items cl ndim (zip (items ++ nones) params) applied =
    run_items cl ndim (zip items params) applied.
Proof.
  intros Hnones. induction items as [ | item items IH ]; intros params applied.
  - cbn [app]. rewrite run_items_None; [ destruct params; reflexivity | ].
    apply (zip_fst_Forall (fun v => v = VNone)), Hnones.
  - destruct params as [ | item_param params ]; [ reflexivity | ].
    cbn [app zip zip_with run_items].
    destruct (apply_item cl ndim item item_param) as [[l | ] | e];
      [ apply IH | apply IH | reflexivity ].
Qed.

(** X19: the layers of a block are those of the items the caller put in [order],
    each with the entry of [order_param] at its position: the [None] items
    that pad a shorter [order] and the ['d'] items of the keywords add
    nothing, and the entries of [order_param] past the end of the caller's
    [order] are not used. *)
Theorem func_applies_callers_items (f k s : atom)
    (order order_param : option loc) (order_priority : bool)
    (kwargs : list (string * atom)) (st st' : store) (cl : closure)
    (items params : list value) (ndim : nat) :
  block f k s order order_param order_priority kwargs st = (st', Ok cl) ->
  effective order default_order st = Some items ->
  effective order_param default_order_param st = Some params ->
  (forall l, order = Some l -> order_param <> Some l) ->
  func cl st' ndim = run_items cl ndim (zip items params) [].
Proof.
  intros Hblock Hitems Hparams Halias.
  destruct (block_Ok_inv _ _ _ _ _ _ _ _ _ _ Hblock)
    as (items' & params' & n & m & Hitems' & Hparams' & Ro & Rp & Hlen & _).
  - intros l ->. cbn [effective] in Hitems. split.
    + apply lookup_lt_is_Some_1. eauto.
    + apply Halias. reflexivity.
  - intros l ->. cbn [effective] in Hparams.
    apply lookup_lt_is_Some_1. eauto.
  - rewrite Hitems in Hitems'. injection Hitems' as <-.
    rewrite Hparams in Hparams'. injection Hparams' as <-.
    unfold func. rewrite Ro, Rp. rewrite zip_app_longer by exact Hlen.
    apply run_items_zip_pad. apply Forall_forall. intros v Hv.
    apply elem_of_replicate in Hv as [-> _]. reflexivity.
Qed.

Lemma func_applies_callers_items_witness :
  exists st' cl,
    block (AInt 64) (AInt 3) (AInt 2) (Some 0) (Some 1) false short_order_kwargs
      short_order_store = (st', Ok cl) /\
    func cl st' 5 = run_items cl 5 (zip [VStr "c"] (replicate 3 VNone)) [].
Proof.
  eexists. eexists. split; [ reflexivity | ].
  apply (func_applies_callers_items (AInt 64) (AInt 3) (AInt 2) (Some 0) (Some 1)
           false short_order_kwargs short_order_store).
  - reflexivity.
  - reflexivity.
  - reflexivity.
  - intros l [= <-]. discriminate.
Defined.

Lemma dropout_keys_nil (kwargs : list (string * atom)) :
  (forall v, ("dropout", v) ∉ kwargs) -> dropout_keys kwargs = [].
Proof.
  induction kwargs as [ | [key v] rest IH ]; intros H;
    cbn [dropout_keys List.filter fst]; [ reflexivity | ].
  fold (dropout_keys rest). destruct (String.eqb_spec key "dropout") as [-> | _].
  - exfalso. apply (H v). constructor.
  - apply IH. intros v' Hv'. apply (H v'). constructor. exact Hv'.
Qed.

(** X20: without a [dropout] keyword, [dropout_rate] is never bound: the first
    ['d'] item that [func] reaches ends the call with [NameError], after the
    layers of the items before it. *)
Theorem dropout_item_needs_keyword (f k s : atom)
    (order order_param : option loc) (order_priority : bool)
    (kwargs : list (string * atom)) (st st' : store) (cl : closure) (ndim : nat)
    (before after : list (value * value)) (item_param : value)
    (applied : list layer) :
  block f k s order order_param order_priority kwargs st = (st', Ok cl) ->
  (forall v, ("dropout", v) ∉ kwargs) ->
  zip (read st' (c_order cl)) (read st' (c_order_param cl)) =
    (before ++ (VStr "d", item_param) :: after)%list ->
  run_items cl ndim before [] = (applied, None) ->
  func cl st' ndim = (applied, Some (NameError "dropout_rate")).
Proof.
  intros Hblock Hkw Hzip Hbefore.
  assert (Hrate : c_dropout_rate cl = None).
  { revert Hblock. unfold block.
    destruct (or_default order_param default_order_param st) as [st1 lp].
    destruct (or_default order default_order st1) as [st2 lo].
    destruct (negb _); [ discriminate | ].
    destruct (kwargs_loop_dropout_keys kwargs lo
                (pad_order (length (read st2 lp)) st2 lo lp) ANone ANone None)
      as [_ Hdr].
    rewrite (dropout_keys_nil kwargs Hkw) in Hdr. cbn [kwargs_loop snd] in Hdr.
    destruct (kwargs_loop kwargs lo _ ANone None) as [[st4 name] dr].
    cbn [snd] in Hdr. subst dr. intros [= _ <-]. reflexivity. }
  unfold func. rewrite Hzip, run_items_app, Hbefore. cbn [run_items].
  assert (Hd : apply_item cl ndim (VStr "d") item_param =
               Raise (NameError "dropout_rate")).
  { unfold apply_item. cbn [eq_str VStr String.eqb Ascii.eqb Bool.eqb orb].
    rewrite Hrate. reflexivity. }
  rewrite Hd. reflexivity.
Qed.

Lemma dropout_item_needs_keyword_witness :
  exists st' cl,
    block (AInt 64) (AInt 3) (AInt 2) (Some 0) (Some 1) false
      [("name", AStr "b1")] relu_dropout_store = (st', Ok cl) /\
    func cl st' 4 = ([ReLU], Some (NameError "dropout_rate")).
Proof.
  eexists. eexists. split; [ reflexivity | ].
  apply (dropout_item_needs_keyword (AInt 64) (AInt 3) (AInt 2) (Some 0) (Some 1)
           false [("name", AStr "b1")] relu_dropout_store _ _ 4
           [(VStr "r", VNone)] [(VStr "b", VNone)] VNone [ReLU]).
  - reflexivity.
  - intros v Hv. apply elem_of_cons in Hv as [Hv | Hv]; [ discriminate Hv | ].
    apply elem_of_nil in Hv. exact Hv.
  - reflexivity.
  - reflexivity.
Defined.

Lemma longer_order_fails_assertion (f k s : atom) (order order_param : loc)
    (order_priority : bool) (kwargs : list (string * atom)) (st : store) :
  length (read st order_param) < length (read st order) ->
  (block f k s (Some order) (Some order_param) order_priority kwargs st).2 =
  Raise (AssertionError "").
Proof.
  intros Hlen. unfold block. cbn [or_default].
  rewrite pad_order_noop by lia.
  destruct (Nat.eqb_spec (length (read st order)) (length (read st order_param)))
    as [E | _]; [ lia | reflexivity ].
Qed.

(** X21: [block] appends to the caller's list: after a call with a [dropout]
    keyword, the list passed as [order] is longer than [order_param], and a
    second call with the same two lists raises [AssertionError], whatever
    its other arguments. *)
Theorem reused_order_list_raises (f k s f2 k2 s2 : atom) (order order_param : loc)
    (order_priority order_priority2 : bool)
    (kwargs kwargs2 : list (string * atom)) (st st' : store) (cl : closure) :
  block f k s (Some order) (Some order_param) order_priority kwargs st =
    (st', Ok cl) ->
  order <> order_param -> order < length st -> order_param < length st ->
  (exists v, ("dropout", v) ∈ kwargs) ->
  (block f2 k2 s2 (Some order) (Some order_param) order_priority2 kwargs2 st').2 =
  Raise (AssertionError "").
Proof.
  intros Hblock Hne Ho Hp Hdrop.
  destruct (block_Ok_inv _ _ _ _ _ _ _ _ _ _ Hblock)
    as (items & params & n & m & _ & _ & Ro & Rp & Hlen & Hm).
  - intros l [= <-]. split; [ exact Ho | congruence ].
  - intros l [= <-]. exact Hp.
  - assert (Hcl : c_order cl = order /\ c_order_param cl = order_param).
    { revert Hblock. unfold block. cbn [or_default].
      destruct (negb _); [ discriminate | ].
      destruct (kwargs_loop kwargs order _ ANone None) as [[st4 name] dr].
      intros [= _ <-]. auto. }
    destruct Hcl as [Eo Ep]. rewrite Eo in Ro. rewrite Ep in Rp.
    apply longer_order_fails_assertion.
    rewrite Ro, Rp, length_app, length_replicate. specialize (Hm Hdrop). lia.
Qed.

Lemma reused_order_list_raises_witness :
  exists st' cl,
    first_call = (st', Ok cl) /\
    (block (AInt 32) (AInt 3) (AInt 1) (Some 0) (Some 1) false [] st').2 =
    Raise (AssertionError "").
Proof.
  eexists. eexists. split; [ reflexivity | ].
  eapply (reused_order_list_raises (AInt 64) (AInt 3) (AInt 2)
            (AInt 32) (AInt 3) (AInt 1) 0 1 false false
            [("dropout", half)] [] shared_store).
  - reflexivity.
  - discriminate.
  - cbn. lia.
  - cbn. lia.
  - exists half. constructor.
Defined.

End FuncBehaviour.
